(** * MACH-Aero tutorial: the FFD lattice script and the airfoil driver's helpers

    A shallow embedding of

    - [tutorial/opt/ffd/simple_ffd.py]: the script that computes the
      control-point grids X, Y, Z of a wing FFD box and dumps them to
      [ffd.xyz];
    - [tutorial/airfoilopt/singlepoint/airfoil_opt.py]: the KS aggregation
      [ksAgg] and the [--zeroLift]/[--cl] normalisation of the parsed
      arguments.

    Floating-point numbers are modelled by the real numbers of the Standard
    Library: every statement below is a statement about exact real
    arithmetic.  Python exceptions are values of [pyexc]; a computation that
    can raise returns a [result]. *)

From Stdlib Require Import Reals Lra Lia List String Ascii Arith ZArith Bool.
From Stdlib Require Import DecimalString.
From Stdlib Require Import Permutation.
Import ListNotations.

Open Scope R_scope.

(* ================================================================= *)
(** ** Exceptions and the two monads of the embedding *)

Inductive pyexc : Set :=
| IndexError
| ValueError
| TypeError
| ZeroDivisionError.

Inductive result (A : Type) : Type :=
| Ok (a : A)
| Raise (e : pyexc).

Arguments Ok {A} a.
Arguments Raise {A} e.

Definition bind {A B : Type} (m : result A) (k : A -> result B) : result B :=
  match m with
  | Ok a => k a
  | Raise e => Raise e
  end.

Notation "x <- m ;; k" := (bind m (fun x => k))
  (at level 61, m at next level, right associativity).

(** [for x in l: st = body x st], stopping at the first exception. *)
Fixpoint for_each {A S : Type} (l : list A) (body : A -> S -> result S)
  (st : S) : result S :=
  match l with
  | [] => Ok st
  | x :: l' => st' <- body x st ;; for_each l' body st'
  end.

(** Python's [range(n)]. *)
Definition range (n : nat) : list nat := seq 0 n.

(** Python's [a[i]] on a list or a one-dimensional array, for [i >= 0]. *)
Definition getitem {A : Type} (a : list A) (i : nat) : result A :=
  match nth_error a i with
  | Some v => Ok v
  | None => Raise IndexError
  end.

(* ================================================================= *)
(** ** The numpy operations the two scripts use *)

Module np.

(** [numpy.linspace(start, stop, num)] with the default [endpoint=True]:
    [arange(0, num) * step + start] with [step = (stop - start) / (num - 1)],
    the last sample then overwritten by [stop].  With [num = 1] numpy has no
    step and returns [0 * (stop - start) + start]. *)
Definition linspace (start stop : R) (num : nat) : list R :=
  match num with
  | O => []
  | S div =>
      match div with
      | O => [0 * (stop - start) + start]
      | S _ =>
          map (fun i => INR i * ((stop - start) / INR div) + start) (seq 0 div)
          ++ [stop]
      end
  end.

(** [x ** y] on floats, for a base [x >= 0] and an exponent [y >= 0] (the
    only use in the script is [linspace(0, 1, nZ) ** 0.8]).  [Rpower] is
    [exp (y * ln x)], which is not the power at [x = 0]; the case is
    written out: [0 ** 0 = 1] and [0 ** y = 0]. *)
Definition power (x y : R) : R :=
  if Req_dec_T x 0 then (if Req_dec_T y 0 then 1 else 0) else Rpower x y.

(** [numpy.zeros((rows, cols))] and [numpy.ones(n)]. *)
Definition zeros (rows cols : nat) : list (list R) := repeat (repeat 0 cols) rows.
Definition ones (n : nat) : list R := repeat 1 n.

(** [a * s] for an array [a] and a scalar [s]. *)
Definition scale (a : list R) (s : R) : list R := map (fun v => v * s) a.

(** [numpy.vstack((a, b))] of two one-dimensional arrays of one length. *)
Definition vstack (a b : list R) : list (list R) := [a; b].

(** [a[j, k]] on a two-dimensional array. *)
Definition getitem2 (a : list (list R)) (j k : nat) : result R :=
  r <- getitem a j ;; getitem r k.

(** [A[row, :] = v]: [IndexError] when the row does not exist; [v] must have
    the length of the row, or length one (it is then broadcast), otherwise
    [ValueError]. *)
Definition set_row (A : list (list R)) (row : nat) (v : list R)
  : result (list (list R)) :=
  match nth_error A row with
  | None => Raise IndexError
  | Some old =>
      if (List.length v =? List.length old)%nat then
        Ok (firstn row A ++ v :: skipn (S row) A)
      else if (List.length v =? 1)%nat then
        Ok (firstn row A ++ repeat (hd 0 v) (List.length old) :: skipn (S row) A)
      else Raise ValueError
  end.

(** [numpy.max(g)]: [ValueError] on an empty array. *)
Definition max (g : list R) : result R :=
  match g with
  | [] => Raise ValueError
  | x :: xs => Ok (fold_left Rmax xs x)
  end.

(** [numpy.sum(a)]. *)
Definition sum (a : list R) : R := fold_right Rplus 0 a.

End np.

(* ================================================================= *)
(** ** Files: [open(name, 'w')], [f.write(s)], [f.close()] *)

Definition filesystem : Type := string -> option string.

(** An I/O action threads the file system and may raise; what was written
    before an exception stays written. *)
Definition IO (A : Type) : Type := filesystem -> filesystem * result A.

Definition io_ret {A : Type} (a : A) : IO A := fun fs => (fs, Ok a).

Definition io_bind {A B : Type} (m : IO A) (k : A -> IO B) : IO B :=
  fun fs =>
    match m fs with
    | (fs', Ok a) => k a fs'
    | (fs', Raise e) => (fs', Raise e)
    end.

Definition io_lift {A : Type} (r : result A) : IO A := fun fs => (fs, r).

Notation "x <-- m ;;; k" := (io_bind m (fun x => k))
  (at level 61, m at next level, right associativity).
Notation "m ;;; k" := (io_bind m (fun _ => k))
  (at level 61, right associativity).

Fixpoint io_for {A : Type} (l : list A) (body : A -> IO unit) : IO unit :=
  match l with
  | [] => io_ret tt
  | x :: l' => body x ;;; io_for l' body
  end.

Definition fs_set (fs : filesystem) (name content : string) : filesystem :=
  fun p => if String.eqb p name then Some content else fs p.

Definition fs_contents (fs : filesystem) (name : string) : string :=
  match fs name with
  | Some s => s
  | None => EmptyString
  end.

(** [open(name, 'w')] creates the file or truncates it; the handle is the
    path. *)
Definition open_w (name : string) : IO string :=
  fun fs => (fs_set fs name EmptyString, Ok name).

Definition write (f : string) (s : string) : IO unit :=
  fun fs => (fs_set fs f (fs_contents fs f ++ s)%string, Ok tt).

Definition close (f : string) : IO unit := io_ret tt.

(* ================================================================= *)
(** ** Printf-style conversions *)

Definition tab : string := String (ascii_of_nat 9) EmptyString.
Definition nl : string := String (ascii_of_nat 10) EmptyString.

(** Decimal digits of a natural number. *)
Definition decimal (n : N) : string := NilEmpty.string_of_uint (N.to_uint n).

(** ['%d' % n] for a non-negative integer. *)
Definition fmt_d (n : nat) : string := decimal (N.of_nat n).

(** Nearest integer, ties to even. *)
Definition round_half_even (x : R) : Z :=
  let f := Int_part x in
  let r := frac_part x in
  if Rlt_dec r (1 / 2) then f
  else if Rlt_dec (1 / 2) r then (f + 1)%Z
  else if Z.even f then f else (f + 1)%Z.

(** [s] padded with zeros on the left up to [width] characters. *)
Definition pad_left (width : nat) (s : string) : string :=
  (String.concat EmptyString (repeat "0" (width - String.length s)) ++ s)%string.

(** ['%3.8f' % x]: sign, integer part, a point and eight decimals; the
    minimum width 3 never pads. *)
Definition fmt_3_8f (x : R) : string :=
  let n := Z.to_N (round_half_even (Rabs x * 10 ^ 8)) in
  ((if Rlt_dec x 0 then "-" else EmptyString)
   ++ decimal (n / 10 ^ 8)%N ++ "." ++ pad_left 8 (decimal (n mod 10 ^ 8)%N))%string.

(* ================================================================= *)
(** ** [simple_ffd.py] *)

Module simple_ffd.

(** The script's inputs: the assignments of its first sixteen lines. *)
Record config : Type := {
  x_root_range : list R;
  y_root_range : list R;
  z_root : R;
  x_tip_range : list R;
  y_tip_range : list R;
  z_tip : R;
  nX : nat;
  nY : nat;
  nZ : nat
}.

(** The values the script assigns. *)
Definition tutorial : config := {|
  x_root_range := [-1 / 10; 51 / 10];
  y_root_range := [-5 / 10; 5 / 10];
  z_root := -1 / 100;
  x_tip_range := [74 / 10; 92 / 10];
  y_tip_range := [-25 / 100; 25 / 100];
  z_tip := 1425 / 100;
  nX := 6;
  nY := 2;
  nZ := 8
|}.

(** [numpy.linspace(0, 1, nZ) ** e]; the script has [e = 0.8]. *)
Definition span_dist_exp (e : R) (n : nat) : list R :=
  map (fun t => np.power t e) (np.linspace 0 1 n).

Definition span_dist (c : config) : list R := span_dist_exp (8 / 10) (nZ c).

(** [span_dist * (tip - root) + root]. *)
Definition interp (sd : list R) (tip root : R) : list R :=
  map (fun t => t * (tip - root) + root) sd.

Definition z_sections (c : config) : list R :=
  interp (span_dist c) (z_tip c) (z_root c).

(** [span_dist*(tip[i] - root[i]) + root[i]]. *)
Definition interp_range (c : config) (tip root : list R) (i : nat)
  : result (list R) :=
  t <- getitem tip i ;;
  r <- getitem root i ;;
  r' <- getitem root i ;;
  Ok (map (fun s => s * (t - r) + r') (span_dist c)).

Definition x_te (c : config) : result (list R) :=
  interp_range c (x_tip_range c) (x_root_range c) 0.

Definition x_le (c : config) : result (list R) :=
  interp_range c (x_tip_range c) (x_root_range c) 1.

Definition y_coords (c : config) : result (list (list R)) :=
  lo <- interp_range c (y_tip_range c) (y_root_range c) 0 ;;
  hi <- interp_range c (y_tip_range c) (y_root_range c) 1 ;;
  Ok (np.vstack lo hi).

(** The three arrays and the row counter of the fill loop. *)
Record grids : Type := {
  X : list (list R);
  Y : list (list R);
  Z : list (list R);
  row : nat
}.

Definition init (c : config) : grids := {|
  X := np.zeros (nY c * nZ c) (nX c);
  Y := np.zeros (nY c * nZ c) (nX c);
  Z := np.zeros (nY c * nZ c) (nX c);
  row := 0
|}.

(** The body of the inner loop. *)
Definition fill_row (c : config) (xte xle : list R) (yc : list (list R))
  (k j : nat) (g : grids) : result grids :=
  a <- getitem xte k ;;
  b <- getitem xle k ;;
  X' <- np.set_row (X g) (row g) (np.linspace a b (nX c)) ;;
  y <- np.getitem2 yc j k ;;
  Y' <- np.set_row (Y g) (row g) (np.scale (np.ones (nX c)) y) ;;
  z <- getitem (z_sections c) k ;;
  Z' <- np.set_row (Z g) (row g) (np.scale (np.ones (nX c)) z) ;;
  Ok {| X := X'; Y := Y'; Z := Z'; row := row g + 1 |}.

Definition fill_station (c : config) (xte xle : list R) (yc : list (list R))
  (k : nat) (g : grids) : result grids :=
  for_each (range (nY c)) (fill_row c xte xle yc k) g.

(** Lines 19 to 35: the grids, or the exception that stops the script. *)
Definition compute_grids (c : config) : result grids :=
  xte <- x_te c ;;
  xle <- x_le c ;;
  yc <- y_coords c ;;
  for_each (range (nZ c)) (fill_station c xte xle yc) (init c).

Definition filename : string := "ffd.xyz".

Definition header1 : string := (tab ++ tab ++ "1" ++ nl)%string.

Definition header2 (c : config) : string :=
  (tab ++ tab ++ fmt_d (nX c) ++ tab ++ tab ++ fmt_d (nY c)
   ++ tab ++ tab ++ fmt_d (nZ c) ++ nl)%string.

(** [fmt % tuple(row)] with the six-field format of line 45: the tuple must
    have exactly six elements. *)
Definition format_row (vals : list R) : result string :=
  match vals with
  | [v1; v2; v3; v4; v5; v6] =>
      Ok (tab ++ fmt_3_8f v1 ++ tab ++ fmt_3_8f v2 ++ tab ++ fmt_3_8f v3
          ++ tab ++ fmt_3_8f v4 ++ tab ++ fmt_3_8f v5 ++ tab ++ fmt_3_8f v6
          ++ nl)%string
  | _ => Raise TypeError
  end.

Definition write_set (f : string) (set : list (list R)) : IO unit :=
  io_for set (fun r => s <-- io_lift (format_row r) ;;; write f s).

(** Lines 38 to 46. *)
Definition write_ffd (c : config) (g : grids) : IO unit :=
  f <-- open_w filename ;;;
  write f header1 ;;;
  write f (header2 c) ;;;
  io_for [X g; Y g; Z g] (write_set f) ;;;
  close f.

(** The whole script. *)
Definition main (c : config) : IO unit :=
  g <-- io_lift (compute_grids c) ;;; write_ffd c g.

End simple_ffd.

(* ================================================================= *)
(** ** [airfoil_opt.py] *)

Module airfoil_opt.

(** [ksAgg(g, rho)]: [numpy.max] raises on an empty [g], and [1.0 / rho]
    raises for the float [rho = 0.0]. *)
Definition ksAgg (g : list R) (rho : R) : result R :=
  maxg <- np.max g ;;
  if Req_dec_T rho 0 then Raise ZeroDivisionError
  else
    Ok (maxg + 1 / rho * ln (np.sum (map (fun gi => exp (rho * (gi - maxg))) g))).

(** The log-sum-exp the docstring's KS aggregation abbreviates, without the
    shift by the maximum: [(1/rho) * ln (sum_i exp (rho * g_i))]. *)
Definition ksAgg_naive (g : list R) (rho : R) : R :=
  1 / rho * ln (np.sum (map (fun gi => exp (rho * gi)) g)).

(** The namespace [parser.parse_args()] returns. *)
Record args : Type := {
  mach : R;
  output : string;
  cl : R;
  alt : R;
  preTrim : bool;
  volCon : bool;
  volUpper : R;
  volLower : R;
  tcMin : R;
  zeroLift : bool;
  relThickLower : R;
  absThickLower : R
}.

Definition set_cl (a : args) (v : R) : args := {|
  mach := mach a; output := output a; cl := v; alt := alt a;
  preTrim := preTrim a; volCon := volCon a; volUpper := volUpper a;
  volLower := volLower a; tcMin := tcMin a; zeroLift := zeroLift a;
  relThickLower := relThickLower a; absThickLower := absThickLower a
|}.

Definition set_zeroLift (a : args) (v : bool) : args := {|
  mach := mach a; output := output a; cl := cl a; alt := alt a;
  preTrim := preTrim a; volCon := volCon a; volUpper := volUpper a;
  volLower := volLower a; tcMin := tcMin a; zeroLift := v;
  relThickLower := relThickLower a; absThickLower := absThickLower a
|}.

(** Lines 52 to 55. *)
Definition normalize (a : args) : args :=
  if zeroLift a && (if Req_dec_T (cl a) 0 then false else true) then
    set_cl a 0
  else if negb (zeroLift a) && (if Req_dec_T (cl a) 0 then true else false) then
    set_zeroLift a true
  else a.

End airfoil_opt.

(* ================================================================= *)
(** ** The quantities the specification of the lattice names

    These are the closed forms the statements below compare the script
    with; none of them is used by the embedding of the script itself. *)

Module lattice.

Import simple_ffd.

(** [t_k = (k / (nZ - 1)) ^ 0.8]. *)
Definition t (c : config) (k : nat) : R :=
  np.power (INR k / INR (nZ c - 1)) (8 / 10).

(** [z_k = t_k (zTip - zRoot) + zRoot]. *)
Definition z_k (c : config) (k : nat) : R :=
  t c k * (z_tip c - z_root c) + z_root c.

(** [r[i]] of a range that has it. *)
Definition at_ (r : list R) (i : nat) : R := nth i r 0.

(** [xTE_k], [xLE_k] and [y_{j,k}]. *)
Definition xTE (c : config) (k : nat) : R :=
  t c k * (at_ (x_tip_range c) 0 - at_ (x_root_range c) 0)
  + at_ (x_root_range c) 0.

Definition xLE (c : config) (k : nat) : R :=
  t c k * (at_ (x_tip_range c) 1 - at_ (x_root_range c) 1)
  + at_ (x_root_range c) 1.

Definition y_jk (c : config) (j k : nat) : R :=
  t c k * (at_ (y_tip_range c) j - at_ (y_root_range c) j)
  + at_ (y_root_range c) j.

(** Rows in spanwise-major, thickness-minor order: for each station [k] in
    order, one row per thickness level [j] in order. *)
Definition rows (c : config) (f : nat -> nat -> list R) : list (list R) :=
  flat_map (fun k => map (f k) (range (nY c))) (range (nZ c)).

Definition X_rows (c : config) : list (list R) :=
  rows c (fun k _ => np.linspace (xTE c k) (xLE c k) (nX c)).

Definition Y_rows (c : config) : list (list R) :=
  rows c (fun k j => repeat (y_jk c j k) (nX c)).

Definition Z_rows (c : config) : list (list R) :=
  rows c (fun k _ => repeat (z_k c k) (nX c)).

(** The state in which the fill loop ends when nothing raises. *)
Definition filled (c : config) : grids :=
  {| X := X_rows c; Y := Y_rows c; Z := Z_rows c; row := nZ c * nY c |}.

(** Every range has the two elements the script indexes. *)
Definition ranges_ok (c : config) : bool :=
  (2 <=? List.length (x_tip_range c))%nat
  && (2 <=? List.length (x_root_range c))%nat
  && (2 <=? List.length (y_tip_range c))%nat
  && (2 <=? List.length (y_root_range c))%nat.

(** The thickness index stays inside the two rows of [y_coords], or the
    loop body never runs. *)
Definition levels_ok (c : config) : bool :=
  (nY c <=? 2)%nat || (nZ c =? 0)%nat.

(** The fill loop after [n] rows: [n] rows done, [m] rows still zero. *)
Definition partial (c : config) (dX dY dZ : list (list R)) (m : nat) : grids :=
  {| X := dX ++ repeat (repeat 0 (nX c)) m;
     Y := dY ++ repeat (repeat 0 (nX c)) m;
     Z := dZ ++ repeat (repeat 0 (nX c)) m;
     row := List.length dX |}.

(** An array of [n] rows of [m] values. *)
Definition has_shape (n m : nat) (a : list (list R)) : Prop :=
  List.length a = n /\ Forall (fun r => List.length r = m) a.

(** One physical line: a tab and a ['%3.8f'] field per value, then a
    newline. *)
Definition line (vals : list R) : string :=
  fold_right (fun v s => (tab ++ fmt_3_8f v ++ s)%string) nl vals.

Definition flatten (ls : list string) : string :=
  fold_right String.append EmptyString ls.

(** The lines after the header: the rows of X, then of Y, then of Z. *)
Definition body_lines (g : grids) : list string :=
  map line (X g) ++ map line (Y g) ++ map line (Z g).

Definition contents (c : config) (g : grids) : string :=
  (header1 ++ header2 c ++ flatten (body_lines g))%string.

(** File [f] of [fs] holds [s], and [fs] is [fs0] elsewhere. *)
Definition file_is (fs0 fs : filesystem) (f s : string) : Prop :=
  fs f = Some s /\ forall p, p <> f -> fs p = fs0 p.

Definition no_files : filesystem := fun _ => None.

(** The configuration [c] with another resolution. *)
Definition with_resolution (c : config) (nx ny nz : nat) : config := {|
  x_root_range := x_root_range c; y_root_range := y_root_range c;
  z_root := z_root c;
  x_tip_range := x_tip_range c; y_tip_range := y_tip_range c;
  z_tip := z_tip c;
  nX := nx; nY := ny; nZ := nz
|}.

(** The rows fit the six-field format, or there is no row. *)
Definition writable (c : config) : bool :=
  (nX c =? 6)%nat || (nZ c * nY c =? 0)%nat.

(** What the script does, by the shape of its inputs. *)
Definition outcome (c : config) : result unit :=
  if negb (ranges_ok c && levels_ok c) then Raise IndexError
  else if writable c then Ok tt
  else Raise TypeError.

End lattice.

(* ================================================================= *)
(** ** [airfoil_opt.py]: the set-up that follows the argument parsing *)

Module airfoil_driver.

Import airfoil_opt.

(** [numpy.clip(x, lo, hi)]: [minimum(hi, maximum(x, lo))]. *)
Definition clip (x lo hi : R) : R := Rmin hi (Rmax x lo).

(** Line 130: [alpha0 = 0. if args.zeroLift else 1.0]. *)
Definition alpha0 (a : args) : R := if zeroLift a then 0 else 1.

(** Line 133: the [alpha] the [AeroProblem] is created with. *)
Definition alpha (a : args) : R := clip (alpha0 a) (-4) 4.

(** Lines 142 and 143: the lift the trim solve [solveCL] is asked for, when
    it is run at all. *)
Definition trim_target (a : args) : option R :=
  if preTrim a && negb (zeroLift a) then Some (cl a) else None.

(** Lines 145 to 147: the bounds of the design variable [alpha], when it is
    added. *)
Definition alpha_dv (a : args) : option (R * R) :=
  if negb (zeroLift a) then Some (-10, 10) else None.

(** Python's [a[i]] for an integer [i] of either sign. *)
Definition getitem_py {A : Type} (a : list A) (i : Z) : result A :=
  if (0 <=? i)%Z then getitem a (Z.to_nat i)
  else if (- Z.of_nat (List.length a) <=? i)%Z
       then getitem a (Z.to_nat (Z.of_nat (List.length a) + i))
       else Raise IndexError.

(** A three-dimensional integer array such as [DVGeo.getLocalIndex(0)]
    returns, and [lIndex[i, j, k]]. *)
Definition array3 : Type := list (list (list Z)).

Definition getitem3 (l : array3) (i j k : Z) : result Z :=
  r <- getitem_py l i ;; s <- getitem_py r j ;; getitem_py s k.

(** [indSetA.append(lIndex[i, j, k]); indSetB.append(lIndex[i', j', k'])]. *)
Definition append_both (l : array3) (i j k i' j' k' : Z)
  (sets : list Z * list Z) : result (list Z * list Z) :=
  a <- getitem3 l i j k ;;
  b <- getitem3 l i' j' k' ;;
  Ok (fst sets ++ [a], snd sets ++ [b]).

(** Lines 179 to 186: the index sets of the leading- and trailing-edge
    constraint. *)
Definition le_te_sets (l : array3) : result (list Z * list Z) :=
  sets <- for_each (range 1)
            (fun k => append_both l 0 0 (Z.of_nat k) 0 1 (Z.of_nat k))
            ([], []) ;;
  for_each (range 1)
    (fun k => append_both l (-1) 0 (Z.of_nat k) (-1) 1 (Z.of_nat k))
    sets.

(** Lines 191 to 198: the index sets of the linear constraint that ties
    the shape variables along the span; [lIndex.shape[0]] is the length of
    the first axis. *)
Definition spanwise_sets (l : array3) : result (list Z * list Z) :=
  sets <- for_each (range (List.length l))
            (fun i => append_both l (Z.of_nat i) 0 0 (Z.of_nat i) 0 1)
            ([], []) ;;
  for_each (range (List.length l))
    (fun i => append_both l (Z.of_nat i) 1 0 (Z.of_nat i) 1 1)
    sets.

(** What a [funcs] dictionary holds under a key: a float or an array. *)
Inductive pyval : Type :=
| Num (x : R)
| Arr (a : list R).

Definition dict : Type := string -> option pyval.

Definition dict_set (d : dict) (key : string) (v : pyval) : dict :=
  fun k => if String.eqb k key then Some v else d k.

(** [v - x], elementwise on an array. *)
Definition sub_scalar (v : pyval) (x : R) : pyval :=
  match v with
  | Num y => Num (y - x)
  | Arr a => Arr (map (fun y => y - x) a)
  end.

(** The values numpy's reductions run over; a float is a single value. *)
Definition elements (v : pyval) : list R :=
  match v with
  | Num y => [y]
  | Arr a => a
  end.

Inductive exc : Type :=
| KeyError (key : string)
| NumpyError (e : pyexc).

Definition thickness_key : string := "DVCon1_thickness_constraints_0".

(** Line 132: [name="fc"]; line 266: ["cl_con_" + ap.name]. *)
Definition cl_con_key : string := "cl_con_fc".

(** Lines 263 to 270, [objCon(funcs, printOK, passThroughFuncs)], without
    the printing.  [cd_key] and [cl_key] are [ap["cd"]] and [ap["cl"]], the
    names under which the flow solver stores drag and lift; [target] is
    [args.cl] and [rho = 1e4].  The dictionary is updated in place: the
    first component is [funcs] when the function returns or raises. *)
Definition objCon (cd_key cl_key : string) (target : R) (funcs : dict)
  : dict * option exc :=
  match funcs cd_key with
  | None => (funcs, Some (KeyError cd_key))
  | Some cd =>
      let f1 := dict_set funcs "obj" cd in
      match f1 cl_key with
      | None => (f1, Some (KeyError cl_key))
      | Some lift =>
          let f2 := dict_set f1 cl_con_key (sub_scalar lift target) in
          match f2 thickness_key with
          | None => (f2, Some (KeyError thickness_key))
          | Some t =>
              match ksAgg (elements t) (10 ^ 4) with
              | Raise e => (f2, Some (NumpyError e))
              | Ok ks => (dict_set f2 "KSThickness" (Num ks), None)
              end
          end
      end
  end.

(** [l[i][j][k]] of an index that exists. *)
Definition at3 (l : array3) (i j k : nat) : Z :=
  nth k (nth j (nth i l []) []) 0%Z.

(** Every plane of [l] has [n1] rows of [n2] entries. *)
Definition regular (n1 n2 : nat) (l : array3) : Prop :=
  Forall (fun r => List.length r = n1
                   /\ Forall (fun s => List.length s = n2) r) l.

(** A [funcs] as the solver leaves it for the tests below: drag, lift and
    three thicknesses. *)
Definition sample_funcs : dict :=
  fun k =>
    if String.eqb k "fc_cd" then Some (Num (1 / 100))
    else if String.eqb k "fc_cl" then Some (Num (1 / 2))
    else if String.eqb k thickness_key then Some (Arr [1 / 10; 12 / 100; 11 / 100])
    else None.

End airfoil_driver.

(* ================================================================= *)
(** ** The box the root and tip sections span *)

Module box.

Import simple_ffd.

(** [v] lies between [a] and [b], whichever is the smaller. *)
Definition between (a b v : R) : Prop := Rmin a b <= v <= Rmax a b.

(** The smallest and the largest of the four bounds of the two ranges. *)
Definition lo (root tip : list R) : R :=
  Rmin (Rmin (lattice.at_ root 0) (lattice.at_ tip 0))
       (Rmin (lattice.at_ root 1) (lattice.at_ tip 1)).

Definition hi (root tip : list R) : R :=
  Rmax (Rmax (lattice.at_ root 0) (lattice.at_ tip 0))
       (Rmax (lattice.at_ root 1) (lattice.at_ tip 1)).

End box.

(* ================================================================= *)
(** ** Counting characters of the file *)

Module text.

Definition tab_char : ascii := ascii_of_nat 9.
Definition nl_char : ascii := ascii_of_nat 10.

(** How often [ch] occurs in [s]. *)
Fixpoint count_char (ch : ascii) (s : string) : nat :=
  match s with
  | EmptyString => 0
  | String a s' => (if Ascii.eqb a ch then 1 else 0) + count_char ch s'
  end.

(** The two characters that separate fields and lines. *)
Definition is_separator (ch : ascii) : Prop := ch = tab_char \/ ch = nl_char.

End text.

(* ################################################################# *)
(** * Properties *)

(* ================================================================= *)
(** ** The conversions on concrete values *)

Example fmt_d_16 : fmt_d 16 = "16"%string.
Proof. reflexivity. Qed.

Example pad_left_5 : pad_left 8 "1000000" = "01000000"%string.
Proof. reflexivity. Qed.

Example header2_tutorial :
  simple_ffd.header2 simple_ffd.tutorial
  = (tab ++ tab ++ "6" ++ tab ++ tab ++ "2" ++ tab ++ tab ++ "8" ++ nl)%string.
Proof. reflexivity. Qed.

Lemma Int_part_IZR (z : Z) : Int_part (IZR z) = z.
Proof.
  unfold Int_part.
  rewrite <- (tech_up (IZR z) (z + 1)).
  - lia.
  - rewrite plus_IZR. lra.
  - rewrite plus_IZR. lra.
Qed.

Lemma round_half_even_IZR (z : Z) : round_half_even (IZR z) = z.
Proof.
  unfold round_half_even, frac_part. rewrite Int_part_IZR.
  destruct (Rlt_dec (IZR z - IZR z) (1 / 2)) as [_|H]; [reflexivity|].
  exfalso. apply H. lra.
Qed.

(** The two values of the tutorial's Z grid that the first and the last
    station print. *)
Example fmt_3_8f_z_root : fmt_3_8f (-1 / 100) = "-0.01000000"%string.
Proof.
  unfold fmt_3_8f.
  destruct (Rlt_dec (-1 / 100) 0) as [_|H]; [|exfalso; apply H; lra].
  replace (Rabs (-1 / 100) * 10 ^ 8) with (IZR 1000000).
  - rewrite round_half_even_IZR. reflexivity.
  - rewrite Rabs_left by lra. simpl pow. lra.
Qed.

Example fmt_3_8f_z_tip : fmt_3_8f (1425 / 100) = "14.25000000"%string.
Proof.
  unfold fmt_3_8f.
  destruct (Rlt_dec (1425 / 100) 0) as [H|_]; [exfalso; lra|].
  replace (Rabs (1425 / 100) * 10 ^ 8) with (IZR 1425000000).
  - rewrite round_half_even_IZR. reflexivity.
  - rewrite Rabs_right by lra. simpl pow. lra.
Qed.

(* ================================================================= *)
(** ** [getitem], [linspace] and [power] *)

Lemma getitem_some {A : Type} (a : list A) (i : nat) (v : A) :
  nth_error a i = Some v -> getitem a i = Ok v.
Proof. intros H. unfold getitem. now rewrite H. Qed.

Lemma getitem_out {A : Type} (a : list A) (i : nat) :
  (List.length a <= i)%nat -> getitem a i = Raise IndexError.
Proof.
  intros H. unfold getitem.
  now rewrite (proj2 (nth_error_None a i) H).
Qed.

Lemma linspace_length (a b : R) (n : nat) :
  List.length (np.linspace a b n) = n.
Proof.
  destruct n as [|[|m]]; simpl; trivial.
  rewrite length_app, length_map, length_seq. simpl. lia.
Qed.

(** Sample [k] of a [linspace] with at least two samples. *)
Lemma linspace_nth (a b : R) (n k : nat) :
  (2 <= n)%nat -> (k < n)%nat ->
  nth_error (np.linspace a b n) k
  = Some (a + INR k * (b - a) / INR (n - 1)).
Proof.
  intros Hn Hk.
  destruct n as [|[|m]]; try lia.
  replace (S (S m) - 1)%nat with (S m) by lia.
  assert (Hm : INR (S m) <> 0) by (apply not_0_INR; lia).
  unfold np.linspace.
  destruct (Nat.eq_dec k (S m)) as [->|Hne].
  - rewrite nth_error_app2 by (rewrite length_map, length_seq; lia).
    rewrite length_map, length_seq, Nat.sub_diag. simpl nth_error.
    f_equal. field. exact Hm.
  - rewrite nth_error_app1 by (rewrite length_map, length_seq; lia).
    rewrite nth_error_map, nth_error_seq.
    destruct (Nat.ltb_spec k (S m)) as [_|]; try lia.
    cbn [option_map Nat.add]. apply f_equal. field. exact Hm.
Qed.

Lemma linspace_first (a b : R) (n : nat) :
  (1 <= n)%nat -> nth_error (np.linspace a b n) 0 = Some a.
Proof.
  intros Hn. destruct n as [|[|m]]; try lia; simpl; f_equal; ring.
Qed.

Lemma linspace_last (a b : R) (n : nat) :
  (2 <= n)%nat -> nth_error (np.linspace a b n) (n - 1) = Some b.
Proof.
  intros Hn. destruct n as [|[|m]]; try lia.
  replace (S (S m) - 1)%nat with (S m) by lia.
  unfold np.linspace.
  rewrite nth_error_app2 by (rewrite length_map, length_seq; lia).
  now rewrite length_map, length_seq, Nat.sub_diag.
Qed.

Lemma power_0_l (e : R) : e <> 0 -> np.power 0 e = 0.
Proof.
  intros He. unfold np.power.
  destruct (Req_dec_T 0 0) as [_|H]; [|now destruct H].
  destruct (Req_dec_T e 0); [contradiction|reflexivity].
Qed.

Lemma power_1_l (e : R) : np.power 1 e = 1.
Proof.
  unfold np.power. destruct (Req_dec_T 1 0) as [H|_]; [lra|].
  unfold Rpower. rewrite ln_1, Rmult_0_r. apply exp_0.
Qed.

Lemma power_pos (x e : R) : 0 < x -> 0 < np.power x e.
Proof.
  intros Hx. unfold np.power. destruct (Req_dec_T x 0); [lra|].
  unfold Rpower. apply exp_pos.
Qed.

(** A positive exponent makes [power] strictly increasing on [x >= 0]. *)
Lemma power_lt (x y e : R) :
  0 < e -> 0 <= x -> x < y -> np.power x e < np.power y e.
Proof.
  intros He Hx Hxy.
  destruct (Req_dec_T x 0) as [->|Hx0].
  - rewrite power_0_l by lra. apply power_pos; lra.
  - unfold np.power.
    destruct (Req_dec_T x 0); [contradiction|].
    destruct (Req_dec_T y 0); [lra|].
    apply Rlt_Rpower_l; lra.
Qed.

(* ================================================================= *)
(** ** The spanwise distribution *)

Section SpanDist.

Variable e : R.
Variable n : nat.
Hypothesis He : 0 < e.
Hypothesis Hn : (2 <= n)%nat.

Lemma span_dist_exp_length_any (e' : R) (m : nat) :
  List.length (simple_ffd.span_dist_exp e' m) = m.
Proof. unfold simple_ffd.span_dist_exp. now rewrite length_map, linspace_length. Qed.

Lemma INR_pred_pos : 0 < INR (n - 1).
Proof. apply lt_0_INR. lia. Qed.

Lemma span_dist_exp_nth (k : nat) :
  (k < n)%nat ->
  nth_error (simple_ffd.span_dist_exp e n) k
  = Some (np.power (INR k / INR (n - 1)) e).
Proof.
  intros Hk. unfold simple_ffd.span_dist_exp.
  rewrite nth_error_map, linspace_nth by assumption.
  simpl. f_equal. f_equal. pose proof INR_pred_pos.
  unfold Rdiv. ring.
Qed.

Lemma span_dist_exp_lt (i j : nat) (ti tj : R) :
  (i < j)%nat -> (j < n)%nat ->
  nth_error (simple_ffd.span_dist_exp e n) i = Some ti ->
  nth_error (simple_ffd.span_dist_exp e n) j = Some tj ->
  ti < tj.
Proof.
  intros Hij Hj Hi Hj'.
  rewrite span_dist_exp_nth in Hi by lia.
  rewrite span_dist_exp_nth in Hj' by lia.
  inversion Hi; inversion Hj'; subst.
  pose proof INR_pred_pos as Hp.
  assert (0 <= INR i) by apply pos_INR.
  assert (INR i < INR j) by now apply lt_INR.
  apply power_lt; trivial.
  - apply Rmult_le_pos; [assumption|]. left. now apply Rinv_0_lt_compat.
  - apply Rmult_lt_compat_r; [now apply Rinv_0_lt_compat|assumption].
Qed.

End SpanDist.

(* ================================================================= *)
(** ** The fill loop *)

Lemma span_dist_length (c : simple_ffd.config) :
  List.length (simple_ffd.span_dist c) = simple_ffd.nZ c.
Proof. apply span_dist_exp_length_any. Qed.

Lemma span_dist_nth (c : simple_ffd.config) (k : nat) :
  (k < simple_ffd.nZ c)%nat ->
  nth_error (simple_ffd.span_dist c) k = Some (lattice.t c k).
Proof.
  intros Hk. unfold simple_ffd.span_dist, lattice.t.
  destruct (le_lt_dec 2 (simple_ffd.nZ c)) as [H2|H1].
  - apply span_dist_exp_nth; trivial; lra.
  - assert (Hz : simple_ffd.nZ c = 1%nat) by lia.
    assert (Hk0 : k = 0%nat) by lia.
    rewrite Hz, Hk0. simpl. do 2 f_equal. unfold Rdiv. ring.
Qed.

Lemma scale_ones (n : nat) (v : R) : np.scale (np.ones n) v = repeat v n.
Proof.
  unfold np.scale, np.ones. induction n as [|n IH]; simpl; trivial.
  rewrite IH. f_equal. ring.
Qed.

Lemma set_row_next (done rest : list (list R)) (old v : list R) :
  List.length v = List.length old ->
  np.set_row (done ++ old :: rest) (List.length done) v
  = Ok ((done ++ [v]) ++ rest).
Proof.
  intros Hlen. unfold np.set_row.
  rewrite nth_error_app2, Nat.sub_diag by lia. simpl nth_error.
  rewrite Hlen, Nat.eqb_refl.
  rewrite firstn_app, firstn_all, Nat.sub_diag, firstn_O, app_nil_r.
  replace (S (List.length done)) with (List.length done + 1)%nat by lia.
  rewrite skipn_app, skipn_all2 by lia.
  replace (List.length done + 1 - List.length done)%nat with 1%nat by lia.
  simpl. now rewrite <- app_assoc.
Qed.

Section FillLoop.

Variable c : simple_ffd.config.
Variables xte xle lo hi : list R.

Let yc := np.vstack lo hi.

(** One pass of the loop body on a state with a free row. *)
Lemma fill_row_next (k j : nat) (a b y z : R) (dX dY dZ : list (list R)) (m : nat) :
  nth_error xte k = Some a ->
  nth_error xle k = Some b ->
  np.getitem2 yc j k = Ok y ->
  nth_error (simple_ffd.z_sections c) k = Some z ->
  List.length dY = List.length dX ->
  List.length dZ = List.length dX ->
  simple_ffd.fill_row c xte xle yc k j (lattice.partial c dX dY dZ (S m))
  = Ok (lattice.partial c
          (dX ++ [np.linspace a b (simple_ffd.nX c)])
          (dY ++ [repeat y (simple_ffd.nX c)])
          (dZ ++ [repeat z (simple_ffd.nX c)]) m).
Proof.
  intros Ha Hb Hy Hz HdY HdZ.
  unfold simple_ffd.fill_row, lattice.partial.
  cbn [simple_ffd.X simple_ffd.Y simple_ffd.Z simple_ffd.row repeat].
  rewrite (getitem_some _ _ _ Ha), (getitem_some _ _ _ Hb),
    (getitem_some _ _ _ Hz), Hy.
  cbn [bind].
  rewrite set_row_next by (now rewrite linspace_length, repeat_length).
  cbn [bind]. rewrite !scale_ones.
  rewrite <- HdY at 1.
  rewrite set_row_next by (now rewrite !repeat_length).
  cbn [bind].
  rewrite <- HdZ at 1.
  rewrite set_row_next by (now rewrite !repeat_length).
  cbn [bind]. rewrite length_app. reflexivity.
Qed.

(** A thickness index beyond the two rows of [y_coords] raises. *)
Lemma fill_row_bad_level (k j : nat) (a b : R) (dX dY dZ : list (list R)) (m : nat) :
  nth_error xte k = Some a ->
  nth_error xle k = Some b ->
  (2 <= j)%nat ->
  simple_ffd.fill_row c xte xle yc k j (lattice.partial c dX dY dZ (S m))
  = Raise IndexError.
Proof.
  intros Ha Hb Hj.
  unfold simple_ffd.fill_row, lattice.partial.
  cbn [simple_ffd.X simple_ffd.Y simple_ffd.Z simple_ffd.row repeat].
  rewrite (getitem_some _ _ _ Ha), (getitem_some _ _ _ Hb).
  cbn [bind].
  rewrite set_row_next by (now rewrite linspace_length, repeat_length).
  cbn [bind]. unfold np.getitem2, yc, np.vstack.
  rewrite getitem_out by (simpl; lia). reflexivity.
Qed.

(** The arrays the loop reads, as functions of the indices. *)
Variables A B Zf : nat -> R.
Variable Yf : nat -> nat -> R.

Hypothesis xte_at :
  forall k, (k < simple_ffd.nZ c)%nat -> nth_error xte k = Some (A k).
Hypothesis xle_at :
  forall k, (k < simple_ffd.nZ c)%nat -> nth_error xle k = Some (B k).
Hypothesis z_at :
  forall k, (k < simple_ffd.nZ c)%nat ->
       nth_error (simple_ffd.z_sections c) k = Some (Zf k).
Hypothesis y_at :
  forall j k, (j < 2)%nat -> (k < simple_ffd.nZ c)%nat ->
         np.getitem2 yc j k = Ok (Yf j k).

Let rowX (k j : nat) : list R := np.linspace (A k) (B k) (simple_ffd.nX c).
Let rowY (k j : nat) : list R := repeat (Yf j k) (simple_ffd.nX c).
Let rowZ (k j : nat) : list R := repeat (Zf k) (simple_ffd.nX c).

(** The inner loop over thickness levels below two. *)
Lemma fill_levels_ok (k : nat) (js : list nat) :
  (k < simple_ffd.nZ c)%nat ->
  Forall (fun j => (j < 2)%nat) js ->
  forall (dX dY dZ : list (list R)) (m : nat),
    List.length dY = List.length dX ->
    List.length dZ = List.length dX ->
    for_each js (simple_ffd.fill_row c xte xle yc k)
      (lattice.partial c dX dY dZ (List.length js + m))
    = Ok (lattice.partial c (dX ++ map (rowX k) js) (dY ++ map (rowY k) js)
            (dZ ++ map (rowZ k) js) m).
Proof.
  intros Hk Hjs. induction Hjs as [|j js Hj _ IH]; intros dX dY dZ m HdY HdZ.
  - simpl. now rewrite !app_nil_r.
  - cbn [for_each List.length Nat.add map].
    rewrite (fill_row_next k j (A k) (B k) (Yf j k) (Zf k)); auto.
    cbn [bind]. rewrite IH by (rewrite !length_app; simpl; lia).
    now rewrite <- !app_assoc.
Qed.

Lemma fill_station_ok (k : nat) (dX dY dZ : list (list R)) (m : nat) :
  (k < simple_ffd.nZ c)%nat ->
  (simple_ffd.nY c <= 2)%nat ->
  List.length dY = List.length dX ->
  List.length dZ = List.length dX ->
  simple_ffd.fill_station c xte xle yc k
    (lattice.partial c dX dY dZ (simple_ffd.nY c + m))
  = Ok (lattice.partial c
          (dX ++ map (rowX k) (range (simple_ffd.nY c)))
          (dY ++ map (rowY k) (range (simple_ffd.nY c)))
          (dZ ++ map (rowZ k) (range (simple_ffd.nY c))) m).
Proof.
  intros Hk HnY HdY HdZ. unfold simple_ffd.fill_station.
  assert (Hjs : Forall (fun j => (j < 2)%nat) (range (simple_ffd.nY c))).
  { apply Forall_forall. intros j Hj. apply in_seq in Hj. lia. }
  pose proof (fill_levels_ok k _ Hk Hjs dX dY dZ m HdY HdZ) as H.
  unfold range in H at 2. rewrite length_seq in H. exact H.
Qed.

(** The outer loop over the stations [s, s + n). *)
Lemma fill_stations_ok (n : nat) :
  (simple_ffd.nY c <= 2)%nat ->
  forall (s : nat) (dX dY dZ : list (list R)) (m : nat),
    (s + n <= simple_ffd.nZ c)%nat ->
    List.length dY = List.length dX ->
    List.length dZ = List.length dX ->
    for_each (seq s n) (simple_ffd.fill_station c xte xle yc)
      (lattice.partial c dX dY dZ (n * simple_ffd.nY c + m))
    = Ok (lattice.partial c
            (dX ++ flat_map (fun k => map (rowX k) (range (simple_ffd.nY c))) (seq s n))
            (dY ++ flat_map (fun k => map (rowY k) (range (simple_ffd.nY c))) (seq s n))
            (dZ ++ flat_map (fun k => map (rowZ k) (range (simple_ffd.nY c))) (seq s n))
            m).
Proof.
  intros HnY. induction n as [|n IH]; intros s dX dY dZ m Hs HdY HdZ.
  - simpl. now rewrite !app_nil_r.
  - cbn [seq for_each flat_map].
    replace (S n * simple_ffd.nY c + m)%nat
      with (simple_ffd.nY c + (n * simple_ffd.nY c + m))%nat by lia.
    rewrite fill_station_ok by (trivial; lia).
    cbn [bind].
    rewrite IH by (rewrite ?length_app, ?length_map; lia).
    now rewrite <- !app_assoc.
Qed.

(** With a third thickness level the first station already raises. *)
Lemma fill_station_bad (k : nat) (m : nat) (dX dY dZ : list (list R)) :
  (k < simple_ffd.nZ c)%nat ->
  (3 <= simple_ffd.nY c)%nat ->
  List.length dY = List.length dX ->
  List.length dZ = List.length dX ->
  simple_ffd.fill_station c xte xle yc k (lattice.partial c dX dY dZ (3 + m))
  = Raise IndexError.
Proof.
  intros Hk HnY HdY HdZ. unfold simple_ffd.fill_station, range.
  destruct (simple_ffd.nY c) as [|[|[|n]]] eqn:E; try lia.
  cbn [seq for_each Nat.add].
  rewrite (fill_row_next k 0 (A k) (B k) (Yf 0 k) (Zf k)); auto.
  cbn [bind].
  rewrite (fill_row_next k 1 (A k) (B k) (Yf 1 k) (Zf k));
    auto; try (rewrite !length_app; simpl; lia).
  cbn [bind].
  rewrite (fill_row_bad_level k 2 (A k) (B k)); auto.
Qed.

End FillLoop.

(* ================================================================= *)
(** ** What [compute_grids] returns *)

Lemma getitem_at (r : list R) (i : nat) :
  (i < List.length r)%nat -> getitem r i = Ok (lattice.at_ r i).
Proof.
  intros Hi. apply getitem_some. unfold lattice.at_.
  now apply nth_error_nth'.
Qed.

Lemma interp_range_ok (c : simple_ffd.config) (tip root : list R) (i : nat) :
  (i < List.length tip)%nat -> (i < List.length root)%nat ->
  simple_ffd.interp_range c tip root i
  = Ok (map (fun s => s * (lattice.at_ tip i - lattice.at_ root i)
                      + lattice.at_ root i) (simple_ffd.span_dist c)).
Proof.
  intros Ht Hr. unfold simple_ffd.interp_range.
  now rewrite !getitem_at by assumption.
Qed.

Lemma ranges_ok_true (c : simple_ffd.config) :
  lattice.ranges_ok c = true <->
  (2 <= List.length (simple_ffd.x_tip_range c))%nat
  /\ (2 <= List.length (simple_ffd.x_root_range c))%nat
  /\ (2 <= List.length (simple_ffd.y_tip_range c))%nat
  /\ (2 <= List.length (simple_ffd.y_root_range c))%nat.
Proof.
  unfold lattice.ranges_ok. rewrite !andb_true_iff, !Nat.leb_le. tauto.
Qed.

Lemma levels_ok_true (c : simple_ffd.config) :
  lattice.levels_ok c = true <->
  (simple_ffd.nY c <= 2)%nat \/ simple_ffd.nZ c = 0%nat.
Proof.
  unfold lattice.levels_ok.
  now rewrite orb_true_iff, Nat.leb_le, Nat.eqb_eq.
Qed.

Lemma flat_rows_length {A B : Type} (g : nat -> A -> B) (inner : list A)
  (n s : nat) :
  List.length (flat_map (fun k => map (g k) inner) (seq s n))
  = (n * List.length inner)%nat.
Proof.
  revert s. induction n as [|n IH]; intros s; simpl; trivial.
  now rewrite length_app, length_map, IH.
Qed.

Lemma flat_rows_nth {A B : Type} (g : nat -> A -> B) (inner : list A)
  (n s k j : nat) (a : A) :
  (k < n)%nat -> nth_error inner j = Some a ->
  nth_error (flat_map (fun k => map (g k) inner) (seq s n))
    (k * List.length inner + j)
  = Some (g (s + k)%nat a).
Proof.
  intros Hk Hj.
  assert (Hlt : (j < List.length inner)%nat).
  { apply nth_error_Some. congruence. }
  revert s k Hk. induction n as [|n IH]; intros s k Hk; [lia|].
  cbn [seq flat_map].
  destruct k as [|k].
  - rewrite nth_error_app1 by (rewrite length_map; lia).
    rewrite nth_error_map. simpl. rewrite Hj. simpl.
    now rewrite Nat.add_0_r.
  - rewrite nth_error_app2 by (rewrite length_map; lia).
    rewrite length_map.
    replace (S k * List.length inner + j - List.length inner)%nat
      with (k * List.length inner + j)%nat by lia.
    rewrite IH by lia. f_equal. f_equal. lia.
Qed.

Lemma rows_length (c : simple_ffd.config) (f : nat -> nat -> list R) :
  List.length (lattice.rows c f) = (simple_ffd.nZ c * simple_ffd.nY c)%nat.
Proof.
  unfold lattice.rows, range.
  now rewrite flat_rows_length, length_seq.
Qed.

(** Row [k * nY + j] is the row of station [k] and level [j]. *)
Lemma rows_nth (c : simple_ffd.config) (f : nat -> nat -> list R) (k j : nat) :
  (k < simple_ffd.nZ c)%nat -> (j < simple_ffd.nY c)%nat ->
  nth_error (lattice.rows c f) (k * simple_ffd.nY c + j) = Some (f k j).
Proof.
  intros Hk Hj. unfold lattice.rows, range.
  pose proof (flat_rows_nth f (seq 0 (simple_ffd.nY c)) (simple_ffd.nZ c)
                0 k j j Hk) as H.
  rewrite length_seq in H. apply H.
  rewrite nth_error_seq.
  now destruct (Nat.ltb_spec j (simple_ffd.nY c)); [|lia].
Qed.

Lemma init_partial (c : simple_ffd.config) :
  simple_ffd.init c
  = lattice.partial c [] [] [] (simple_ffd.nZ c * simple_ffd.nY c + 0).
Proof.
  unfold simple_ffd.init, lattice.partial, np.zeros. simpl.
  now rewrite Nat.add_0_r, (Nat.mul_comm (simple_ffd.nY c)).
Qed.

Lemma compute_grids_ok (c : simple_ffd.config) :
  lattice.ranges_ok c = true ->
  lattice.levels_ok c = true ->
  simple_ffd.compute_grids c = Ok (lattice.filled c).
Proof.
  intros Hr Hl. apply ranges_ok_true in Hr. destruct Hr as (Hxt & Hxr & Hyt & Hyr).
  apply levels_ok_true in Hl.
  unfold simple_ffd.compute_grids, simple_ffd.x_te, simple_ffd.x_le,
    simple_ffd.y_coords.
  rewrite !interp_range_ok by lia. cbn [bind].
  destruct Hl as [HnY|HnZ].
  - rewrite init_partial. unfold range.
    rewrite (fill_stations_ok c _ _ _ _ (lattice.xTE c) (lattice.xLE c)
               (lattice.z_k c) (lattice.y_jk c)); trivial.
    + unfold lattice.filled, lattice.partial.
      cbn [app repeat]. rewrite !app_nil_r.
      do 2 f_equal.
      apply (rows_length c
               (fun k _ => np.linspace (lattice.xTE c k) (lattice.xLE c k)
                             (simple_ffd.nX c))).
    + intros k Hk. now rewrite nth_error_map, span_dist_nth.
    + intros k Hk. now rewrite nth_error_map, span_dist_nth.
    + intros k Hk. unfold simple_ffd.z_sections, simple_ffd.interp.
      now rewrite nth_error_map, span_dist_nth.
    + intros j k Hj Hk. unfold np.getitem2, np.vstack.
      destruct j as [|[|j]]; [| |lia];
        cbn [getitem nth_error bind]; apply getitem_some;
        now rewrite nth_error_map, span_dist_nth.
  - unfold lattice.filled, lattice.X_rows, lattice.Y_rows, lattice.Z_rows,
      lattice.rows, simple_ffd.init, np.zeros.
    rewrite HnZ, Nat.mul_0_r. reflexivity.
Qed.

Lemma compute_grids_bad_levels (c : simple_ffd.config) :
  lattice.ranges_ok c = true ->
  lattice.levels_ok c = false ->
  simple_ffd.compute_grids c = Raise IndexError.
Proof.
  intros Hr Hl. apply ranges_ok_true in Hr. destruct Hr as (Hxt & Hxr & Hyt & Hyr).
  unfold lattice.levels_ok in Hl. apply orb_false_iff in Hl.
  destruct Hl as [HnY HnZ].
  apply Nat.leb_gt in HnY. apply Nat.eqb_neq in HnZ.
  unfold simple_ffd.compute_grids, simple_ffd.x_te, simple_ffd.x_le,
    simple_ffd.y_coords.
  rewrite !interp_range_ok by lia. cbn [bind].
  rewrite init_partial.
  replace (simple_ffd.nZ c * simple_ffd.nY c + 0)%nat
    with (3 + (simple_ffd.nZ c * simple_ffd.nY c - 3))%nat by nia.
  unfold range.
  destruct (simple_ffd.nZ c) as [|n] eqn:E; [congruence|].
  cbn [seq for_each].
  rewrite (fill_station_bad c _ _ _ _ (lattice.xTE c) (lattice.xLE c)
             (lattice.z_k c) (lattice.y_jk c)); trivial; try lia.
  - intros k Hk. rewrite nth_error_map, span_dist_nth; trivial; lia.
  - intros k Hk. rewrite nth_error_map, span_dist_nth; trivial; lia.
  - intros k Hk. unfold simple_ffd.z_sections, simple_ffd.interp.
    rewrite nth_error_map, span_dist_nth; trivial; lia.
  - intros j k Hj Hk. unfold np.getitem2, np.vstack.
    destruct j as [|[|j]]; [| |lia];
      cbn [getitem nth_error bind]; apply getitem_some;
      rewrite nth_error_map, span_dist_nth; trivial; lia.
Qed.

Lemma compute_grids_bad_ranges (c : simple_ffd.config) :
  lattice.ranges_ok c = false ->
  simple_ffd.compute_grids c = Raise IndexError.
Proof.
  destruct c as [xr yr zr xt yt zt nx ny nz].
  unfold lattice.ranges_ok. cbn [simple_ffd.x_tip_range simple_ffd.x_root_range
    simple_ffd.y_tip_range simple_ffd.y_root_range].
  intros H.
  destruct xt as [|? [|? ?]]; destruct xr as [|? [|? ?]];
    try reflexivity;
    destruct yt as [|? [|? ?]]; destruct yr as [|? [|? ?]];
    try reflexivity; discriminate H.
Qed.

(** The grids are computed exactly when every range has two elements and
    the thickness index stays below two; nothing but [IndexError] is ever
    raised. *)
Lemma compute_grids_spec (c : simple_ffd.config) :
  simple_ffd.compute_grids c
  = if lattice.ranges_ok c && lattice.levels_ok c
    then Ok (lattice.filled c) else Raise IndexError.
Proof.
  destruct (lattice.ranges_ok c) eqn:Hr; cbn [andb].
  - destruct (lattice.levels_ok c) eqn:Hl.
    + now apply compute_grids_ok.
    + now apply compute_grids_bad_levels.
  - now apply compute_grids_bad_ranges.
Qed.

(* ================================================================= *)
(** ** Writing the file *)

Lemma append_assoc (a b c : string) :
  ((a ++ b) ++ c = a ++ b ++ c)%string.
Proof. induction a as [|x a IH]; simpl; [reflexivity|now rewrite IH]. Qed.

Lemma append_nil_r (a : string) : (a ++ EmptyString = a)%string.
Proof. induction a as [|x a IH]; simpl; [reflexivity|now rewrite IH]. Qed.

Lemma flatten_app (l1 l2 : list string) :
  lattice.flatten (l1 ++ l2)
  = (lattice.flatten l1 ++ lattice.flatten l2)%string.
Proof.
  induction l1 as [|a l1 IH]; simpl; trivial.
  now rewrite IH, append_assoc.
Qed.

Lemma format_row_six (r : list R) :
  List.length r = 6%nat ->
  simple_ffd.format_row r = Ok (lattice.line r).
Proof.
  intros H.
  destruct r as [|v1 [|v2 [|v3 [|v4 [|v5 [|v6 [|v7 r]]]]]]]; try discriminate H.
  reflexivity.
Qed.

Lemma format_row_not_six (r : list R) :
  List.length r <> 6%nat ->
  simple_ffd.format_row r = Raise TypeError.
Proof.
  intros H.
  destruct r as [|v1 [|v2 [|v3 [|v4 [|v5 [|v6 [|v7 r]]]]]]]; try reflexivity.
  now destruct H.
Qed.

Lemma file_is_write (fs0 fs : filesystem) (f s s' : string) :
  lattice.file_is fs0 fs f s ->
  lattice.file_is fs0 (fst (write f s' fs)) f (s ++ s')%string.
Proof.
  intros [Hf Ho]. unfold write, lattice.file_is, fs_set, fs_contents. simpl.
  rewrite String.eqb_refl, Hf. split; trivial.
  intros p Hp. apply String.eqb_neq in Hp. rewrite Hp. apply Ho.
  now apply String.eqb_neq.
Qed.

Lemma file_is_open (fs : filesystem) (f : string) :
  lattice.file_is fs (fst (open_w f fs)) f EmptyString.
Proof.
  unfold open_w, lattice.file_is, fs_set. simpl.
  rewrite String.eqb_refl. split; trivial.
  intros p Hp. apply String.eqb_neq in Hp. now rewrite Hp.
Qed.

(** Rows of six values are written one line each. *)
Lemma write_set_ok (fs0 : filesystem) (f : string) (set : list (list R)) :
  Forall (fun r => List.length r = 6%nat) set ->
  forall (fs : filesystem) (s : string),
    lattice.file_is fs0 fs f s ->
    exists fs',
      simple_ffd.write_set f set fs = (fs', Ok tt)
      /\ lattice.file_is fs0 fs' f (s ++ lattice.flatten (map lattice.line set))%string.
Proof.
  intros Hset. induction Hset as [|r set Hr _ IH]; intros fs s Hfs.
  - exists fs. simpl. now rewrite append_nil_r.
  - unfold simple_ffd.write_set. cbn [io_for].
    unfold io_bind at 1. unfold io_bind at 1.
    rewrite (format_row_six r Hr). unfold io_lift.
    pose proof (file_is_write fs0 fs f s (lattice.line r) Hfs) as Hw.
    destruct (write f (lattice.line r) fs) as [fs1 [[]|e]] eqn:E;
      [|discriminate E].
    destruct (IH fs1 _ Hw) as (fs' & Hrun & Hfile).
    exists fs'. split; [exact Hrun|].
    cbn [map lattice.flatten fold_right].
    now rewrite <- append_assoc.
Qed.

(** A first row that has not six values raises before anything is
    written. *)
Lemma write_set_bad (f : string) (r : list R) (set : list (list R))
  (fs : filesystem) :
  List.length r <> 6%nat ->
  simple_ffd.write_set f (r :: set) fs = (fs, Raise TypeError).
Proof.
  intros Hr. unfold simple_ffd.write_set. cbn [io_for].
  unfold io_bind at 1. unfold io_bind at 1.
  now rewrite (format_row_not_six r Hr).
Qed.

Lemma rows_shape (c : simple_ffd.config) (f : nat -> nat -> list R) :
  (forall k j, List.length (f k j) = simple_ffd.nX c) ->
  lattice.has_shape (simple_ffd.nZ c * simple_ffd.nY c) (simple_ffd.nX c)
    (lattice.rows c f).
Proof.
  intros Hf. split; [apply rows_length|].
  apply Forall_forall. intros r Hr. unfold lattice.rows in Hr.
  apply in_flat_map in Hr. destruct Hr as (k & _ & Hr).
  apply in_map_iff in Hr. destruct Hr as (j & <- & _). apply Hf.
Qed.

Lemma filled_shape (c : simple_ffd.config) :
  lattice.has_shape (simple_ffd.nZ c * simple_ffd.nY c) (simple_ffd.nX c)
    (lattice.X_rows c)
  /\ lattice.has_shape (simple_ffd.nZ c * simple_ffd.nY c) (simple_ffd.nX c)
       (lattice.Y_rows c)
  /\ lattice.has_shape (simple_ffd.nZ c * simple_ffd.nY c) (simple_ffd.nX c)
       (lattice.Z_rows c).
Proof.
  repeat split; try apply rows_length; apply rows_shape; intros k j;
    solve [apply linspace_length | apply repeat_length].
Qed.

Lemma shape_writable (c : simple_ffd.config) (a : list (list R)) :
  lattice.writable c = true ->
  lattice.has_shape (simple_ffd.nZ c * simple_ffd.nY c) (simple_ffd.nX c) a ->
  Forall (fun r => List.length r = 6%nat) a.
Proof.
  unfold lattice.writable. intros Hw [Hlen Hrows].
  apply orb_true_iff in Hw. destruct Hw as [H6|H0].
  - apply Nat.eqb_eq in H6. now rewrite H6 in Hrows.
  - apply Nat.eqb_eq in H0. rewrite H0 in Hlen.
    apply length_zero_iff_nil in Hlen. subst a. constructor.
Qed.

Lemma shape_not_writable (c : simple_ffd.config) (a : list (list R)) :
  lattice.writable c = false ->
  lattice.has_shape (simple_ffd.nZ c * simple_ffd.nY c) (simple_ffd.nX c) a ->
  exists r a', a = r :: a' /\ List.length r <> 6%nat.
Proof.
  unfold lattice.writable. intros Hw [Hlen Hrows].
  apply orb_false_iff in Hw. destruct Hw as [H6 H0].
  apply Nat.eqb_neq in H6. apply Nat.eqb_neq in H0.
  destruct a as [|r a']; [simpl in Hlen; congruence|].
  exists r, a'. split; trivial.
  inversion Hrows; subst. congruence.
Qed.

Section WriteFfd.

Variable c : simple_ffd.config.
Variable g : simple_ffd.grids.
Variable fs : filesystem.

Let headers : string := (simple_ffd.header1 ++ simple_ffd.header2 c)%string.

Lemma write_ffd_ok :
  Forall (fun r => List.length r = 6%nat) (simple_ffd.X g) ->
  Forall (fun r => List.length r = 6%nat) (simple_ffd.Y g) ->
  Forall (fun r => List.length r = 6%nat) (simple_ffd.Z g) ->
  exists fs',
    simple_ffd.write_ffd c g fs = (fs', Ok tt)
    /\ lattice.file_is fs fs' simple_ffd.filename (lattice.contents c g).
Proof.
  intros HX HY HZ.
  set (f := simple_ffd.filename).
  set (fs1 := fst (write f (simple_ffd.header2 c)
                     (fst (write f simple_ffd.header1 (fst (open_w f fs)))))).
  assert (H1 : lattice.file_is fs fs1 f headers).
  { apply file_is_write. apply (file_is_write fs _ _ EmptyString).
    apply file_is_open. }
  destruct (write_set_ok fs f _ HX fs1 _ H1) as (fs2 & R2 & H2).
  destruct (write_set_ok fs f _ HY fs2 _ H2) as (fs3 & R3 & H3).
  destruct (write_set_ok fs f _ HZ fs3 _ H3) as (fs4 & R4 & H4).
  exists fs4. split.
  - unfold simple_ffd.write_ffd. unfold io_bind at 1. cbn [open_w].
    unfold io_bind at 1. cbn [write].
    unfold io_bind at 1. cbn [write].
    unfold io_bind at 1. cbn [io_for].
    unfold io_bind at 1. fold f. fold f in R2, R3, R4.
    change (fs_set _ f _) with fs1. rewrite R2.
    unfold io_bind at 1. rewrite R3.
    unfold io_bind at 1. rewrite R4.
    reflexivity.
  - unfold lattice.contents, lattice.body_lines.
    rewrite !flatten_app. unfold headers in H4.
    rewrite !append_assoc in H4. exact H4.
Qed.

Lemma write_ffd_bad (r : list R) (rest : list (list R)) :
  simple_ffd.X g = r :: rest ->
  List.length r <> 6%nat ->
  exists fs',
    simple_ffd.write_ffd c g fs = (fs', Raise TypeError)
    /\ lattice.file_is fs fs' simple_ffd.filename headers.
Proof.
  intros HX Hr.
  set (f := simple_ffd.filename).
  set (fs1 := fst (write f (simple_ffd.header2 c)
                     (fst (write f simple_ffd.header1 (fst (open_w f fs)))))).
  assert (H1 : lattice.file_is fs fs1 f headers).
  { apply file_is_write. apply (file_is_write fs _ _ EmptyString).
    apply file_is_open. }
  exists fs1. split; trivial.
  unfold simple_ffd.write_ffd. unfold io_bind at 1. cbn [open_w].
  unfold io_bind at 1. cbn [write].
  unfold io_bind at 1. cbn [write].
  unfold io_bind at 1. cbn [io_for].
  unfold io_bind at 1. fold f.
  change (fs_set _ f _) with fs1.
  rewrite HX, (write_set_bad f r rest fs1 Hr). reflexivity.
Qed.

End WriteFfd.

(* ================================================================= *)
(** ** The whole script *)

Lemma compute_grids_ok_inv (c : simple_ffd.config) (g : simple_ffd.grids) :
  simple_ffd.compute_grids c = Ok g ->
  lattice.ranges_ok c = true /\ lattice.levels_ok c = true
  /\ g = lattice.filled c.
Proof.
  rewrite compute_grids_spec.
  destruct (lattice.ranges_ok c), (lattice.levels_ok c); cbn [andb];
    intros H; inversion H; auto.
Qed.

Lemma main_index_error (c : simple_ffd.config) (fs : filesystem) :
  lattice.ranges_ok c && lattice.levels_ok c = false ->
  simple_ffd.main c fs = (fs, Raise IndexError).
Proof.
  intros H. unfold simple_ffd.main, io_bind, io_lift.
  now rewrite compute_grids_spec, H.
Qed.

Lemma main_ok (c : simple_ffd.config) (fs : filesystem) :
  lattice.ranges_ok c && lattice.levels_ok c = true ->
  lattice.writable c = true ->
  exists fs',
    simple_ffd.main c fs = (fs', Ok tt)
    /\ lattice.file_is fs fs' simple_ffd.filename
         (lattice.contents c (lattice.filled c)).
Proof.
  intros H Hw. unfold simple_ffd.main, io_bind, io_lift.
  rewrite compute_grids_spec, H.
  destruct (filled_shape c) as (HX & HY & HZ).
  apply write_ffd_ok; now apply (shape_writable c).
Qed.

Lemma main_type_error (c : simple_ffd.config) (fs : filesystem) :
  lattice.ranges_ok c && lattice.levels_ok c = true ->
  lattice.writable c = false ->
  exists fs',
    simple_ffd.main c fs = (fs', Raise TypeError)
    /\ lattice.file_is fs fs' simple_ffd.filename
         (simple_ffd.header1 ++ simple_ffd.header2 c)%string.
Proof.
  intros H Hw. unfold simple_ffd.main, io_bind, io_lift.
  rewrite compute_grids_spec, H.
  destruct (filled_shape c) as (HX & _).
  destruct (shape_not_writable c _ Hw HX) as (r & rest & E & Hr).
  now apply (write_ffd_bad c (lattice.filled c) fs r rest).
Qed.

Lemma main_outcome (c : simple_ffd.config) (fs : filesystem) :
  snd (simple_ffd.main c fs) = lattice.outcome c.
Proof.
  unfold lattice.outcome.
  destruct (lattice.ranges_ok c && lattice.levels_ok c) eqn:H; cbn [negb].
  - destruct (lattice.writable c) eqn:Hw.
    + destruct (main_ok c fs H Hw) as (fs' & -> & _). reflexivity.
    + destruct (main_type_error c fs H Hw) as (fs' & -> & _). reflexivity.
  - now rewrite main_index_error.
Qed.

(** Whenever the script gets as far as opening the file, what the file
    holds afterwards is a function of the inputs alone. *)
Lemma main_file (c : simple_ffd.config) :
  lattice.ranges_ok c && lattice.levels_ok c = true ->
  exists s, forall fs,
      fst (simple_ffd.main c fs) simple_ffd.filename = Some s.
Proof.
  intros H. destruct (lattice.writable c) eqn:Hw.
  - exists (lattice.contents c (lattice.filled c)). intros fs.
    destruct (main_ok c fs H Hw) as (fs' & -> & Hf & _). exact Hf.
  - exists (simple_ffd.header1 ++ simple_ffd.header2 c)%string. intros fs.
    destruct (main_type_error c fs H Hw) as (fs' & -> & Hf & _). exact Hf.
Qed.

Lemma t_lt (c : simple_ffd.config) (i j : nat) :
  (i < j)%nat -> (j < simple_ffd.nZ c)%nat -> lattice.t c i < lattice.t c j.
Proof.
  intros Hij Hj. unfold lattice.t.
  assert (Hp : 0 < INR (simple_ffd.nZ c - 1)) by (apply lt_0_INR; lia).
  assert (0 <= INR i) by apply pos_INR.
  assert (INR i < INR j) by now apply lt_INR.
  apply power_lt; [lra| |].
  - apply Rmult_le_pos; [assumption|]. left. now apply Rinv_0_lt_compat.
  - apply Rmult_lt_compat_r; [now apply Rinv_0_lt_compat|assumption].
Qed.

(* ================================================================= *)
(** ** The statements about the lattice *)

(** C1.  When the grids are computed, row [k * nY + j] of X, for a station
    [k < nZ] and a level [j < nY], has exactly [nX] values; value [i] is
    [xTE_k + i (xLE_k - xTE_k) / (nX - 1)], that is, the values are linearly
    spaced; the first is [xTE_k] and the last is [xLE_k], where
    [xTE_k = t_k (xTipRange[0] - xRootRange[0]) + xRootRange[0]] and
    [xLE_k = t_k (xTipRange[1] - xRootRange[1]) + xRootRange[1]]. *)
Theorem X_row_linearly_spaced (c : simple_ffd.config) (g : simple_ffd.grids)
  (k j : nat) :
  simple_ffd.compute_grids c = Ok g ->
  (2 <= simple_ffd.nX c)%nat ->
  (k < simple_ffd.nZ c)%nat ->
  (j < simple_ffd.nY c)%nat ->
  exists r,
    nth_error (simple_ffd.X g) (k * simple_ffd.nY c + j) = Some r
    /\ List.length r = simple_ffd.nX c
    /\ (forall i, (i < simple_ffd.nX c)%nat ->
             nth_error r i
             = Some (lattice.xTE c k
                     + INR i * (lattice.xLE c k - lattice.xTE c k)
                       / INR (simple_ffd.nX c - 1)))
    /\ nth_error r 0 = Some (lattice.xTE c k)
    /\ nth_error r (simple_ffd.nX c - 1) = Some (lattice.xLE c k).
Proof.
  intros Hg HnX Hk Hj.
  apply compute_grids_ok_inv in Hg. destruct Hg as (_ & _ & ->).
  exists (np.linspace (lattice.xTE c k) (lattice.xLE c k) (simple_ffd.nX c)).
  split; [|split; [|split; [|split]]].
  - cbn [lattice.filled simple_ffd.X]. unfold lattice.X_rows.
    now rewrite rows_nth.
  - apply linspace_length.
  - intros i Hi. now apply linspace_nth.
  - apply linspace_first. lia.
  - now apply linspace_last.
Qed.

Lemma X_row_linearly_spaced_witness :
  exists r,
    nth_error (simple_ffd.X (lattice.filled simple_ffd.tutorial)) (3 * 2 + 1)
    = Some r
    /\ List.length r = 6%nat
    /\ (forall i, (i < 6)%nat ->
             nth_error r i
             = Some (lattice.xTE simple_ffd.tutorial 3
                     + INR i * (lattice.xLE simple_ffd.tutorial 3
                                - lattice.xTE simple_ffd.tutorial 3)
                       / INR (6 - 1)))
    /\ nth_error r 0 = Some (lattice.xTE simple_ffd.tutorial 3)
    /\ nth_error r (6 - 1) = Some (lattice.xLE simple_ffd.tutorial 3).
Proof.
  apply (X_row_linearly_spaced simple_ffd.tutorial
           (lattice.filled simple_ffd.tutorial) 3 1).
  - apply compute_grids_ok; reflexivity.
  - simpl; lia.
  - simpl; lia.
  - simpl; lia.
Defined.

(** C2.  When the grids are computed, row [k * nY + j] of Z is [nX] copies
    of [z_k = t_k (zTip - zRoot) + zRoot]; and when [zTip <> zRoot] the
    sequence [z_0 .. z_(nZ-1)] is strictly monotonic: strictly increasing
    or strictly decreasing in [k]. *)
Theorem Z_row_constant_and_monotone (c : simple_ffd.config)
  (g : simple_ffd.grids) :
  simple_ffd.compute_grids c = Ok g ->
  (forall k j, (k < simple_ffd.nZ c)%nat -> (j < simple_ffd.nY c)%nat ->
          nth_error (simple_ffd.Z g) (k * simple_ffd.nY c + j)
          = Some (repeat (lattice.z_k c k) (simple_ffd.nX c)))
  /\ (simple_ffd.z_tip c <> simple_ffd.z_root c ->
      (forall i j, (i < j)%nat -> (j < simple_ffd.nZ c)%nat ->
              lattice.z_k c i < lattice.z_k c j)
      \/ (forall i j, (i < j)%nat -> (j < simple_ffd.nZ c)%nat ->
                 lattice.z_k c j < lattice.z_k c i)).
Proof.
  intros Hg. apply compute_grids_ok_inv in Hg. destruct Hg as (_ & _ & ->).
  split.
  - intros k j Hk Hj. cbn [lattice.filled simple_ffd.Z]. unfold lattice.Z_rows.
    now rewrite rows_nth.
  - intros Hz. unfold lattice.z_k.
    destruct (Rtotal_order (simple_ffd.z_root c) (simple_ffd.z_tip c))
      as [Hlt|[Heq|Hgt]]; [left| congruence |right];
      intros i j Hij Hj; pose proof (t_lt c i j Hij Hj); nra.
Qed.

Lemma Z_row_constant_and_monotone_witness :
  (forall k j, (k < 8)%nat -> (j < 2)%nat ->
          nth_error (simple_ffd.Z (lattice.filled simple_ffd.tutorial))
            (k * 2 + j)
          = Some (repeat (lattice.z_k simple_ffd.tutorial k) 6))
  /\ (1425 / 100 <> -1 / 100 ->
      (forall i j, (i < j)%nat -> (j < 8)%nat ->
              lattice.z_k simple_ffd.tutorial i
              < lattice.z_k simple_ffd.tutorial j)
      \/ (forall i j, (i < j)%nat -> (j < 8)%nat ->
                 lattice.z_k simple_ffd.tutorial j
                 < lattice.z_k simple_ffd.tutorial i)).
Proof.
  apply (Z_row_constant_and_monotone simple_ffd.tutorial
           (lattice.filled simple_ffd.tutorial)).
  apply compute_grids_ok; reflexivity.
Defined.

(** C3.  For [nZ >= 2] and a positive exponent, the spanwise parameters
    [linspace(0, 1, nZ) ** e] are [t_k = (k / (nZ - 1)) ^ e] for
    [k = 0 .. nZ - 1], they are non-decreasing in [k], the first is [0]
    and the last is [1].  (The script has [e = 0.8].) *)
Theorem span_dist_monotone_from_0_to_1 (e : R) (n : nat) :
  (2 <= n)%nat -> 0 < e ->
  List.length (simple_ffd.span_dist_exp e n) = n
  /\ (forall k, (k < n)%nat ->
           nth_error (simple_ffd.span_dist_exp e n) k
           = Some (np.power (INR k / INR (n - 1)) e))
  /\ (forall i j ti tj, (i <= j)%nat -> (j < n)%nat ->
           nth_error (simple_ffd.span_dist_exp e n) i = Some ti ->
           nth_error (simple_ffd.span_dist_exp e n) j = Some tj ->
           ti <= tj)
  /\ nth_error (simple_ffd.span_dist_exp e n) 0 = Some 0
  /\ nth_error (simple_ffd.span_dist_exp e n) (n - 1) = Some 1.
Proof.
  intros Hn He.
  assert (Hp : INR (n - 1) <> 0) by (apply not_0_INR; lia).
  split; [|split; [|split; [|split]]].
  - apply span_dist_exp_length_any.
  - intros k Hk. now apply span_dist_exp_nth.
  - intros i j ti tj Hij Hj Hi Hj'.
    destruct (Nat.eq_dec i j) as [->|Hne].
    + rewrite Hi in Hj'. inversion Hj'. lra.
    + left. apply (span_dist_exp_lt e n He Hn i j); trivial. lia.
  - rewrite span_dist_exp_nth by (trivial; lia).
    f_equal. simpl INR. unfold Rdiv. rewrite Rmult_0_l.
    apply power_0_l. lra.
  - rewrite span_dist_exp_nth by (trivial; lia).
    f_equal. unfold Rdiv. rewrite Rinv_r by assumption. apply power_1_l.
Qed.

Lemma span_dist_monotone_from_0_to_1_witness :
  List.length (simple_ffd.span_dist_exp (8 / 10) 8) = 8%nat
  /\ (forall k, (k < 8)%nat ->
           nth_error (simple_ffd.span_dist_exp (8 / 10) 8) k
           = Some (np.power (INR k / INR (8 - 1)) (8 / 10)))
  /\ (forall i j ti tj, (i <= j)%nat -> (j < 8)%nat ->
           nth_error (simple_ffd.span_dist_exp (8 / 10) 8) i = Some ti ->
           nth_error (simple_ffd.span_dist_exp (8 / 10) 8) j = Some tj ->
           ti <= tj)
  /\ nth_error (simple_ffd.span_dist_exp (8 / 10) 8) 0 = Some 0
  /\ nth_error (simple_ffd.span_dist_exp (8 / 10) 8) (8 - 1) = Some 1.
Proof.
  apply (span_dist_monotone_from_0_to_1 (8 / 10) 8); [lia|lra].
Defined.

(** The tutorial's own lattice: the first row of Z prints as six fields
    [-0.01000000], the last row as six fields [14.25000000]. *)
Example tutorial_Z_first_and_last_line :
  let field (s : string) : string := (tab ++ s)%string in
  let six (s : string) : string :=
    (field s ++ field s ++ field s ++ field s ++ field s ++ field s ++ nl)%string in
  option_map lattice.line
    (nth_error (simple_ffd.Z (lattice.filled simple_ffd.tutorial)) (0 * 2 + 0))
  = Some (six "-0.01000000"%string)
  /\ option_map lattice.line
       (nth_error (simple_ffd.Z (lattice.filled simple_ffd.tutorial)) (7 * 2 + 1))
     = Some (six "14.25000000"%string).
Proof.
  cbn zeta. cbn [lattice.filled simple_ffd.Z]. unfold lattice.Z_rows.
  pose proof (rows_nth simple_ffd.tutorial
                (fun k _ => repeat (lattice.z_k simple_ffd.tutorial k)
                              (simple_ffd.nX simple_ffd.tutorial)) 0 0) as R0.
  pose proof (rows_nth simple_ffd.tutorial
                (fun k _ => repeat (lattice.z_k simple_ffd.tutorial k)
                              (simple_ffd.nX simple_ffd.tutorial)) 7 1) as R7.
  cbn [simple_ffd.nY simple_ffd.nZ simple_ffd.tutorial] in R0, R7.
  rewrite R0, R7 by lia. clear R0 R7.
  assert (H0 : lattice.z_k simple_ffd.tutorial 0 = -1 / 100).
  { unfold lattice.z_k, lattice.t. simpl INR. unfold Rdiv at 1.
    rewrite Rmult_0_l, power_0_l by lra. simpl. lra. }
  assert (H7 : lattice.z_k simple_ffd.tutorial 7 = 1425 / 100).
  { unfold lattice.z_k, lattice.t.
    replace (INR 7 / INR (simple_ffd.nZ simple_ffd.tutorial - 1)) with 1
      by (simpl; field).
    rewrite power_1_l. simpl. lra. }
  rewrite H0, H7. cbn [option_map simple_ffd.nX simple_ffd.tutorial repeat
                         lattice.line fold_right].
  rewrite fmt_3_8f_z_root, fmt_3_8f_z_tip. split; reflexivity.
Qed.

(** C4, as stated, fails: with three thickness levels ([nX = 6], [nY = 3],
    [nZ = 8], each at least two) the fill loop reads [y_coords[2, 0]], a row
    the two-row array [y_coords] does not have, and no grid is produced. *)
Lemma three_levels_no_grids :
  let c := lattice.with_resolution simple_ffd.tutorial 6 3 8 in
  (2 <= simple_ffd.nX c)%nat /\ (2 <= simple_ffd.nY c)%nat
  /\ (2 <= simple_ffd.nZ c)%nat
  /\ simple_ffd.compute_grids c = Raise IndexError
  /\ ~ (exists g, simple_ffd.compute_grids c = Ok g
               /\ lattice.has_shape (simple_ffd.nY c * simple_ffd.nZ c)
                    (simple_ffd.nX c) (simple_ffd.X g)).
Proof.
  intros c.
  assert (H : simple_ffd.compute_grids c = Raise IndexError).
  { rewrite compute_grids_spec. reflexivity. }
  repeat split; try (simpl; lia); trivial.
  intros (g & Hg & _). rewrite H in Hg. discriminate Hg.
Qed.

(** C4, amended.  When every range has its two elements and there are at
    most two thickness levels (so [nY = 2] among the resolutions with
    [nY >= 2]; [nX] and [nZ] are free), the grids X, Y and Z are computed,
    each has shape [(nY * nZ, nX)], and the rows come station by station,
    [nY] consecutive rows per station, one per thickness level: row
    [k * nY + j] is the row of station [k] and level [j].  With three or
    more levels and at least one station the script raises [IndexError]. *)
Theorem grids_shape_and_row_order (c : simple_ffd.config) :
  lattice.ranges_ok c = true ->
  ((simple_ffd.nY c <= 2)%nat ->
   exists g,
     simple_ffd.compute_grids c = Ok g
     /\ lattice.has_shape (simple_ffd.nY c * simple_ffd.nZ c) (simple_ffd.nX c)
          (simple_ffd.X g)
     /\ lattice.has_shape (simple_ffd.nY c * simple_ffd.nZ c) (simple_ffd.nX c)
          (simple_ffd.Y g)
     /\ lattice.has_shape (simple_ffd.nY c * simple_ffd.nZ c) (simple_ffd.nX c)
          (simple_ffd.Z g)
     /\ forall k j, (k < simple_ffd.nZ c)%nat -> (j < simple_ffd.nY c)%nat ->
         nth_error (simple_ffd.X g) (k * simple_ffd.nY c + j)
         = Some (np.linspace (lattice.xTE c k) (lattice.xLE c k)
                   (simple_ffd.nX c))
         /\ nth_error (simple_ffd.Y g) (k * simple_ffd.nY c + j)
            = Some (repeat (lattice.y_jk c j k) (simple_ffd.nX c))
         /\ nth_error (simple_ffd.Z g) (k * simple_ffd.nY c + j)
            = Some (repeat (lattice.z_k c k) (simple_ffd.nX c)))
  /\ ((3 <= simple_ffd.nY c)%nat -> (1 <= simple_ffd.nZ c)%nat ->
      simple_ffd.compute_grids c = Raise IndexError).
Proof.
  intros Hr. split.
  - intros HnY. exists (lattice.filled c).
    rewrite (Nat.mul_comm (simple_ffd.nY c)).
    destruct (filled_shape c) as (HX & HY & HZ).
    split; [|split; [|split; [|split]]]; trivial.
    + apply compute_grids_ok; trivial. apply levels_ok_true. now left.
    + intros k j Hk Hj. cbn [lattice.filled simple_ffd.X simple_ffd.Y simple_ffd.Z].
      unfold lattice.X_rows, lattice.Y_rows, lattice.Z_rows.
      now rewrite !rows_nth.
  - intros HnY HnZ. apply compute_grids_bad_levels; trivial.
    unfold lattice.levels_ok. apply orb_false_iff.
    split; [apply Nat.leb_gt|apply Nat.eqb_neq]; lia.
Qed.

Lemma grids_shape_and_row_order_witness :
  (2 <= 2)%nat /\
  exists g,
    simple_ffd.compute_grids simple_ffd.tutorial = Ok g
    /\ lattice.has_shape (2 * 8) 6 (simple_ffd.X g)
    /\ lattice.has_shape (2 * 8) 6 (simple_ffd.Y g)
    /\ lattice.has_shape (2 * 8) 6 (simple_ffd.Z g).
Proof.
  split; [lia|].
  destruct (grids_shape_and_row_order simple_ffd.tutorial eq_refl) as [H _].
  destruct (H (le_n 2)) as (g & Hg & HX & HY & HZ & _).
  exists g. exact (conj Hg (conj HX (conj HY HZ))).
Defined.

(** C5, as stated, fails: with rows of five values ([nX = 5], [nY = 2],
    [nZ = 8]) the six-field format of the write loop meets a five-element
    tuple and the script stops with [TypeError]; the values are not
    regrouped by six. *)
Lemma five_columns_not_serialized :
  let c := lattice.with_resolution simple_ffd.tutorial 5 2 8 in
  (2 <= simple_ffd.nX c)%nat
  /\ (exists g, simple_ffd.compute_grids c = Ok g)
  /\ snd (simple_ffd.main c lattice.no_files) = Raise TypeError.
Proof.
  intros c. split; [simpl; lia|]. split.
  - exists (lattice.filled c). apply compute_grids_ok; reflexivity.
  - rewrite main_outcome. reflexivity.
Qed.

(** C5, amended.  When the grids are computed and [nX = 6], the script
    succeeds and leaves in [ffd.xyz] the block-count line [1], the dimension
    line with [nX], [nY], [nZ], and then one physical line per row, for the
    [nY * nZ] rows of X, then of Y, then of Z; each line holds the six
    ['%3.8f'] fields of its row.  For any other [nX], as soon as there is a
    row, the script raises [TypeError] and leaves the two header lines
    only. *)
Theorem file_layout (c : simple_ffd.config) (g : simple_ffd.grids)
  (fs : filesystem) :
  simple_ffd.compute_grids c = Ok g ->
  (simple_ffd.nX c = 6%nat ->
   exists fs',
     simple_ffd.main c fs = (fs', Ok tt)
     /\ fs' simple_ffd.filename
        = Some (simple_ffd.header1 ++ simple_ffd.header2 c
                ++ lattice.flatten
                     (map lattice.line (simple_ffd.X g)
                      ++ map lattice.line (simple_ffd.Y g)
                      ++ map lattice.line (simple_ffd.Z g)))%string
     /\ List.length (simple_ffd.X g) = (simple_ffd.nY c * simple_ffd.nZ c)%nat
     /\ List.length (simple_ffd.Y g) = (simple_ffd.nY c * simple_ffd.nZ c)%nat
     /\ List.length (simple_ffd.Z g) = (simple_ffd.nY c * simple_ffd.nZ c)%nat
     /\ forall r, In r (simple_ffd.X g ++ simple_ffd.Y g ++ simple_ffd.Z g) ->
         exists v1 v2 v3 v4 v5 v6,
           r = [v1; v2; v3; v4; v5; v6]
           /\ lattice.line r
              = (tab ++ fmt_3_8f v1 ++ tab ++ fmt_3_8f v2 ++ tab ++ fmt_3_8f v3
                 ++ tab ++ fmt_3_8f v4 ++ tab ++ fmt_3_8f v5
                 ++ tab ++ fmt_3_8f v6 ++ nl)%string)
  /\ (simple_ffd.nX c <> 6%nat ->
      (0 < simple_ffd.nY c * simple_ffd.nZ c)%nat ->
      exists fs',
        simple_ffd.main c fs = (fs', Raise TypeError)
        /\ fs' simple_ffd.filename
           = Some (simple_ffd.header1 ++ simple_ffd.header2 c)%string).
Proof.
  intros Hg. apply compute_grids_ok_inv in Hg. destruct Hg as (Hr & Hl & ->).
  assert (H : lattice.ranges_ok c && lattice.levels_ok c = true)
    by now rewrite Hr, Hl.
  split.
  - intros H6.
    assert (Hw : lattice.writable c = true).
    { unfold lattice.writable. now rewrite H6. }
    destruct (main_ok c fs H Hw) as (fs' & Hrun & Hfile & _).
    destruct (filled_shape c) as ((LX & FX) & (LY & FY) & (LZ & FZ)).
    exists fs'. rewrite (Nat.mul_comm (simple_ffd.nY c)).
    split; [|split; [|split; [|split; [|split]]]]; trivial.
    intros r Hin.
    assert (Hlen : List.length r = 6%nat).
    { rewrite <- H6. cbn [lattice.filled simple_ffd.X simple_ffd.Y simple_ffd.Z] in Hin.
      rewrite !in_app_iff in Hin.
      destruct Hin as [Hin|[Hin|Hin]];
        [ exact (proj1 (Forall_forall _ _) FX r Hin)
        | exact (proj1 (Forall_forall _ _) FY r Hin)
        | exact (proj1 (Forall_forall _ _) FZ r Hin) ]. }
    destruct r as [|v1 [|v2 [|v3 [|v4 [|v5 [|v6 [|v7 r]]]]]]];
      try discriminate Hlen.
    exists v1, v2, v3, v4, v5, v6. split; reflexivity.
  - intros H6 Hrows.
    assert (Hw : lattice.writable c = false).
    { unfold lattice.writable. apply orb_false_iff.
      split; apply Nat.eqb_neq; lia. }
    destruct (main_type_error c fs H Hw) as (fs' & Hrun & Hfile & _).
    exists fs'. now split.
Qed.

Lemma file_layout_witness :
  exists fs',
    simple_ffd.main simple_ffd.tutorial lattice.no_files = (fs', Ok tt)
    /\ List.length (simple_ffd.X (lattice.filled simple_ffd.tutorial))
       = (2 * 8)%nat.
Proof.
  destruct (file_layout simple_ffd.tutorial (lattice.filled simple_ffd.tutorial)
              lattice.no_files
              (compute_grids_ok simple_ffd.tutorial eq_refl eq_refl))
    as [H _].
  destruct (H eq_refl) as (fs' & Hrun & _ & HX & _).
  exists fs'. split; assumption.
Defined.

(** C6, as stated, fails: with a single station ([nX = 6], [nY = 2],
    [nZ = 1]) the script raises nothing and writes the file. *)
Lemma one_station_succeeds :
  let c := lattice.with_resolution simple_ffd.tutorial 6 2 1 in
  (simple_ffd.nZ c < 2)%nat
  /\ snd (simple_ffd.main c lattice.no_files) = Ok tt
  /\ fst (simple_ffd.main c lattice.no_files) simple_ffd.filename
     = Some (lattice.contents c (lattice.filled c)).
Proof.
  intros c. split; [simpl; lia|].
  destruct (main_ok c lattice.no_files eq_refl eq_refl) as (fs' & -> & Hf & _).
  split; [reflexivity|exact Hf].
Qed.

(** Elements of a range beyond the second are ignored. *)
Example long_range_accepted :
  let c := {| simple_ffd.x_root_range := [-1 / 10; 51 / 10; 7];
              simple_ffd.y_root_range := [-5 / 10; 5 / 10];
              simple_ffd.z_root := -1 / 100;
              simple_ffd.x_tip_range := [74 / 10; 92 / 10];
              simple_ffd.y_tip_range := [-25 / 100; 25 / 100];
              simple_ffd.z_tip := 1425 / 100;
              simple_ffd.nX := 6; simple_ffd.nY := 2; simple_ffd.nZ := 8 |} in
  snd (simple_ffd.main c lattice.no_files) = Ok tt
  /\ simple_ffd.compute_grids c
     = Ok (lattice.filled simple_ffd.tutorial).
Proof.
  intros c. split.
  - rewrite main_outcome. reflexivity.
  - rewrite compute_grids_spec. reflexivity.
Qed.

(** C6, amended.  The script validates nothing and has no
    [InvalidConfiguration] error.  It raises [IndexError] exactly when some
    range has fewer than two elements, or when [nY >= 3] and [nZ >= 1];
    otherwise it raises [TypeError] exactly when [nX <> 6] and there is at
    least one row; otherwise it succeeds.  A resolution below two, [nZ = 1]
    included, and a range with more than two elements are accepted. *)
Theorem generation_outcome (c : simple_ffd.config) (fs : filesystem) :
  snd (simple_ffd.main c fs)
  = if negb (lattice.ranges_ok c && lattice.levels_ok c) then Raise IndexError
    else if lattice.writable c then Ok tt
    else Raise TypeError.
Proof. apply main_outcome. Qed.

(** C8.  The outcome of the script and, whenever it gets as far as opening
    [ffd.xyz], the bytes it leaves there do not depend on the file system
    the run starts from: two runs on the same inputs agree, whatever an
    earlier run or anything else left behind; and a second run after a
    first leaves the file as the first left it. *)
Theorem main_deterministic (c : simple_ffd.config) (fs1 fs2 : filesystem) :
  snd (simple_ffd.main c fs1) = snd (simple_ffd.main c fs2)
  /\ ((exists g, simple_ffd.compute_grids c = Ok g) ->
      fst (simple_ffd.main c fs1) simple_ffd.filename
      = fst (simple_ffd.main c fs2) simple_ffd.filename)
  /\ fst (simple_ffd.main c (fst (simple_ffd.main c fs1))) simple_ffd.filename
     = fst (simple_ffd.main c fs1) simple_ffd.filename.
Proof.
  split; [now rewrite !main_outcome|].
  destruct (lattice.ranges_ok c && lattice.levels_ok c) eqn:H.
  - destruct (main_file c H) as (s & Hs). split.
    + intros _. now rewrite !Hs.
    + now rewrite !Hs.
  - split.
    + intros (g & Hg). apply compute_grids_ok_inv in Hg.
      destruct Hg as (Hr & Hl & _). rewrite Hr, Hl in H. discriminate H.
    + now rewrite !main_index_error.
Qed.

(* ================================================================= *)
(** ** The KS aggregation *)

Lemma fold_max_le (xs : list R) (x : R) : x <= fold_left Rmax xs x.
Proof.
  revert x. induction xs as [|y xs IH]; intros x; simpl; [lra|].
  apply Rle_trans with (Rmax x y); [apply Rmax_l|apply IH].
Qed.

Lemma fold_max_upper (xs : list R) (x y : R) :
  In y (x :: xs) -> y <= fold_left Rmax xs x.
Proof.
  revert x. induction xs as [|z xs IH]; intros x Hy.
  - destruct Hy as [->|[]]. simpl. lra.
  - simpl. destruct Hy as [->|[->|Hy]].
    + apply Rle_trans with (Rmax y z); [apply Rmax_l|apply fold_max_le].
    + apply Rle_trans with (Rmax x y); [apply Rmax_r|apply fold_max_le].
    + apply IH. now right.
Qed.

Lemma fold_max_in (xs : list R) (x : R) : In (fold_left Rmax xs x) (x :: xs).
Proof.
  revert x. induction xs as [|z xs IH]; intros x; simpl; [now left|].
  destruct (IH (Rmax x z)) as [H|H].
  - rewrite <- H. unfold Rmax. destruct (Rle_dec x z); auto.
  - auto.
Qed.

Lemma sum_pos (f : R -> R) (g : list R) :
  (forall x, 0 < f x) -> g <> [] -> 0 < np.sum (map f g).
Proof.
  intros Hf Hg. destruct g as [|x g]; [contradiction|]. clear Hg. simpl.
  assert (H : 0 <= np.sum (map f g)).
  { induction g as [|y g IH]; simpl; [lra|]. pose proof (Hf y). lra. }
  pose proof (Hf x). lra.
Qed.

Lemma sum_ge_term (f : R -> R) (g : list R) (m : R) :
  (forall x, 0 < f x) -> In m g -> f m <= np.sum (map f g).
Proof.
  intros Hf. induction g as [|x g IH]; intros Hm; [contradiction|].
  simpl. destruct Hm as [->|Hm].
  - assert (H : 0 <= np.sum (map f g)).
    { clear IH. induction g as [|y g IH]; simpl; [lra|]. pose proof (Hf y). lra. }
    lra.
  - pose proof (Hf x). pose proof (IH Hm). lra.
Qed.

Lemma sum_scal (a : R) (f : R -> R) (g : list R) :
  np.sum (map (fun x => a * f x) g) = a * np.sum (map f g).
Proof.
  induction g as [|x g IH]; simpl; [ring|]. rewrite IH. ring.
Qed.

Lemma sum_repeat (v : R) (n : nat) : np.sum (repeat v n) = INR n * v.
Proof.
  induction n as [|n IH]; [simpl; ring|].
  cbn [repeat np.sum fold_right]. fold (np.sum (repeat v n)).
  rewrite IH, S_INR. ring.
Qed.

Lemma max_repeat (v : R) (n : nat) : fold_left Rmax (repeat v n) v = v.
Proof.
  induction n as [|n IH]; simpl; trivial.
  unfold Rmax at 2. destruct (Rle_dec v v); exact IH.
Qed.

Lemma ksAgg_value (g : list R) (rho : R) (x : R) (xs : list R) :
  g = x :: xs -> rho <> 0 ->
  airfoil_opt.ksAgg g rho
  = Ok (fold_left Rmax xs x
        + 1 / rho
          * ln (np.sum (map (fun gi => exp (rho * (gi - fold_left Rmax xs x))) g))).
Proof.
  intros -> Hrho. unfold airfoil_opt.ksAgg. cbn [np.max bind].
  destruct (Req_dec_T rho 0); [contradiction|reflexivity].
Qed.

(** C7.  For [rho > 0]: on a nonempty [g], [ksAgg(g, rho)] returns a value
    that is at least the maximum of [g] (the element [m] of [g] that bounds
    every element of [g]); and on [n >= 1] copies of [c] it returns
    [c + ln(n) / rho]. *)
Theorem ksAgg_above_max_and_constant (rho : R) :
  0 < rho ->
  (forall g, g <> [] ->
        exists m v,
          np.max g = Ok m
          /\ In m g /\ (forall x, In x g -> x <= m)
          /\ airfoil_opt.ksAgg g rho = Ok v
          /\ m <= v)
  /\ (forall c n, (1 <= n)%nat ->
             airfoil_opt.ksAgg (repeat c n) rho = Ok (c + ln (INR n) / rho)).
Proof.
  intros Hrho. split.
  - intros g Hg. destruct g as [|x xs]; [contradiction|].
    set (m := fold_left Rmax xs x).
    exists m. eexists. split; [reflexivity|].
    split; [apply fold_max_in|].
    split; [intros y Hy; now apply fold_max_upper|].
    split; [apply (ksAgg_value _ rho x xs eq_refl); lra|].
    fold m.
    set (f := fun gi => exp (rho * (gi - m))).
    assert (Hf : forall y, 0 < f y) by (intros y; apply exp_pos).
    assert (H1 : 1 <= np.sum (map f (x :: xs))).
    { replace 1 with (f m).
      - apply sum_ge_term; trivial. apply fold_max_in.
      - unfold f. replace (rho * (m - m)) with 0 by ring. apply exp_0. }
    assert (Hln : 0 <= ln (np.sum (map f (x :: xs)))).
    { rewrite <- ln_1. destruct H1 as [H1|H1].
      - left. apply ln_increasing; lra.
      - rewrite <- H1. lra. }
    assert (0 < 1 / rho) by (apply Rdiv_lt_0_compat; lra).
    nra.
  - intros c n Hn. destruct n as [|n]; [lia|].
    rewrite (ksAgg_value (repeat c (S n)) rho c (repeat c n) eq_refl) by lra.
    rewrite max_repeat. f_equal. f_equal.
    change (c :: repeat c n) with (repeat c (S n)).
    rewrite map_repeat, sum_repeat.
    replace (rho * (c - c)) with 0 by ring.
    rewrite exp_0, Rmult_1_r. field. lra.
Qed.

Lemma ksAgg_above_max_and_constant_witness :
  (forall g, g <> [] ->
        exists m v,
          np.max g = Ok m
          /\ In m g /\ (forall x, In x g -> x <= m)
          /\ airfoil_opt.ksAgg g 1 = Ok v
          /\ m <= v)
  /\ (forall c n, (1 <= n)%nat ->
             airfoil_opt.ksAgg (repeat c n) 1 = Ok (c + ln (INR n) / 1)).
Proof.
  apply (ksAgg_above_max_and_constant 1). lra.
Defined.

(** C9.  For a nonempty [g] and [rho > 0], [ksAgg(g, rho)] returns the
    value of the log-sum-exp [(1/rho) ln (sum_i exp (rho g_i))]: the shift
    by the maximum changes nothing in exact real arithmetic. *)
Theorem ksAgg_is_log_sum_exp (g : list R) (rho : R) :
  g <> [] -> 0 < rho ->
  airfoil_opt.ksAgg g rho = Ok (airfoil_opt.ksAgg_naive g rho).
Proof.
  intros Hg Hrho. destruct g as [|x xs] eqn:E; [contradiction|].
  rewrite (ksAgg_value _ rho x xs eq_refl) by lra.
  set (m := fold_left Rmax xs x). f_equal.
  unfold airfoil_opt.ksAgg_naive. rewrite <- E in *.
  assert (Hs : np.sum (map (fun gi => exp (rho * (gi - m))) g)
               = exp (- (rho * m)) * np.sum (map (fun gi => exp (rho * gi)) g)).
  { rewrite <- sum_scal. f_equal. apply map_ext. intros a.
    rewrite <- exp_plus. f_equal. ring. }
  rewrite Hs, ln_mult, ln_exp.
  - field. lra.
  - apply exp_pos.
  - apply sum_pos; [intros; apply exp_pos|]. rewrite E. discriminate.
Qed.

Lemma ksAgg_is_log_sum_exp_witness :
  airfoil_opt.ksAgg [1; 2; 3] 2 = Ok (airfoil_opt.ksAgg_naive [1; 2; 3] 2).
Proof.
  apply (ksAgg_is_log_sum_exp [1; 2; 3] 2); [discriminate|lra].
Defined.

(* ================================================================= *)
(** ** The normalisation of [--zeroLift] and [--cl] *)

(** C10.  After the normalisation, [zeroLift] holds exactly when [cl = 0],
    whatever was parsed; [zeroLift] with a nonzero [cl] forces [cl] to [0];
    [cl = 0] without [zeroLift] forces [zeroLift] to [True]; every other
    field keeps its value. *)
Theorem normalize_zeroLift_iff_cl_zero (a : airfoil_opt.args) :
  let a' := airfoil_opt.normalize a in
  (airfoil_opt.zeroLift a' = true <-> airfoil_opt.cl a' = 0)
  /\ (airfoil_opt.zeroLift a = true -> airfoil_opt.cl a <> 0 ->
      airfoil_opt.cl a' = 0 /\ airfoil_opt.zeroLift a' = true)
  /\ (airfoil_opt.zeroLift a = false -> airfoil_opt.cl a = 0 ->
      airfoil_opt.zeroLift a' = true /\ airfoil_opt.cl a' = 0)
  /\ airfoil_opt.mach a' = airfoil_opt.mach a
  /\ airfoil_opt.output a' = airfoil_opt.output a
  /\ airfoil_opt.alt a' = airfoil_opt.alt a
  /\ airfoil_opt.preTrim a' = airfoil_opt.preTrim a
  /\ airfoil_opt.volCon a' = airfoil_opt.volCon a
  /\ airfoil_opt.volUpper a' = airfoil_opt.volUpper a
  /\ airfoil_opt.volLower a' = airfoil_opt.volLower a
  /\ airfoil_opt.tcMin a' = airfoil_opt.tcMin a
  /\ airfoil_opt.relThickLower a' = airfoil_opt.relThickLower a
  /\ airfoil_opt.absThickLower a' = airfoil_opt.absThickLower a.
Proof.
  unfold airfoil_opt.normalize.
  destruct (airfoil_opt.zeroLift a) eqn:Hz;
    destruct (Req_dec_T (airfoil_opt.cl a) 0) as [Hc|Hc];
    cbn [andb negb airfoil_opt.set_cl airfoil_opt.set_zeroLift
         airfoil_opt.zeroLift airfoil_opt.cl airfoil_opt.mach
         airfoil_opt.output airfoil_opt.alt airfoil_opt.preTrim
         airfoil_opt.volCon airfoil_opt.volUpper airfoil_opt.volLower
         airfoil_opt.tcMin airfoil_opt.relThickLower
         airfoil_opt.absThickLower];
    rewrite ?Hz; repeat split; auto; try congruence; try contradiction.
Qed.

(* ################################################################# *)
(** * Further properties of the lattice *)

Lemma t_first (c : simple_ffd.config) : lattice.t c 0 = 0.
Proof.
  unfold lattice.t. simpl INR. unfold Rdiv. rewrite Rmult_0_l.
  apply power_0_l. lra.
Qed.

Lemma t_last (c : simple_ffd.config) :
  (2 <= simple_ffd.nZ c)%nat -> lattice.t c (simple_ffd.nZ c - 1) = 1.
Proof.
  intros Hn. unfold lattice.t.
  assert (Hp : INR (simple_ffd.nZ c - 1) <> 0) by (apply not_0_INR; lia).
  unfold Rdiv. rewrite Rinv_r by assumption. apply power_1_l.
Qed.

Lemma power_nonneg (x e : R) : 0 <= np.power x e.
Proof.
  unfold np.power. destruct (Req_dec_T x 0).
  - destruct (Req_dec_T e 0); lra.
  - left. unfold Rpower. apply exp_pos.
Qed.

Lemma t_unit (c : simple_ffd.config) (k : nat) :
  (k < simple_ffd.nZ c)%nat -> 0 <= lattice.t c k <= 1.
Proof.
  intros Hk. split; [apply power_nonneg|].
  destruct (le_lt_dec 2 (simple_ffd.nZ c)) as [H2|H1].
  - destruct (Nat.eq_dec k (simple_ffd.nZ c - 1)) as [->|Hne].
    + rewrite t_last by assumption. lra.
    + rewrite <- (t_last c H2). left. apply t_lt; lia.
  - replace k with 0%nat by lia. rewrite t_first. lra.
Qed.

Lemma interp_between (t a b : R) :
  0 <= t <= 1 -> box.between a b (t * (b - a) + a).
Proof.
  intros Ht. unfold box.between, Rmin, Rmax.
  destruct (Rle_dec a b); split; nra.
Qed.

Lemma between_trans (a b lo hi v : R) :
  lo <= a <= hi -> lo <= b <= hi -> box.between a b v -> lo <= v <= hi.
Proof.
  unfold box.between, Rmin, Rmax. intros Ha Hb.
  destruct (Rle_dec a b); lra.
Qed.

Lemma linspace_between (a b : R) (n : nat) (v : R) :
  In v (np.linspace a b n) -> box.between a b v.
Proof.
  destruct n as [|[|m]]; cbn [np.linspace].
  - intros [].
  - intros [<-|[]]. apply interp_between. lra.
  - intros Hv. apply in_app_iff in Hv. destruct Hv as [Hv|[<-|[]]].
    + apply in_map_iff in Hv. destruct Hv as (i & <- & Hi).
      apply in_seq in Hi.
      assert (Hm : 0 < INR (S m)) by (apply lt_0_INR; lia).
      assert (Hi' : 0 <= INR i <= INR (S m)).
      { split; [apply pos_INR|apply le_INR; lia]. }
      replace (INR i * ((b - a) / INR (S m)) + a)
        with (INR i / INR (S m) * (b - a) + a) by (field; lra).
      apply interp_between. split.
      * apply Rmult_le_pos; [lra|]. left. now apply Rinv_0_lt_compat.
      * apply Rmult_le_reg_r with (INR (S m)); trivial.
        unfold Rdiv. rewrite Rmult_assoc, Rinv_l by lra. lra.
    + unfold box.between, Rmin, Rmax. destruct (Rle_dec a b); lra.
Qed.

Lemma in_rows (c : simple_ffd.config) (f : nat -> nat -> list R) (r : list R) :
  In r (lattice.rows c f) ->
  exists k j, (k < simple_ffd.nZ c)%nat /\ (j < simple_ffd.nY c)%nat /\ r = f k j.
Proof.
  unfold lattice.rows, range. intros Hr.
  apply in_flat_map in Hr. destruct Hr as (k & Hk & Hr).
  apply in_map_iff in Hr. destruct Hr as (j & <- & Hj).
  apply in_seq in Hk. apply in_seq in Hj. exists k, j. repeat split; lia.
Qed.




Lemma box_bounds (root tip : list R) (i : nat) :
  (i < 2)%nat ->
  box.lo root tip <= lattice.at_ root i <= box.hi root tip
  /\ box.lo root tip <= lattice.at_ tip i <= box.hi root tip.
Proof.
  intros Hi. unfold box.lo, box.hi.
  set (r0 := lattice.at_ root 0). set (t0 := lattice.at_ tip 0).
  set (r1 := lattice.at_ root 1). set (t1 := lattice.at_ tip 1).
  pose proof (Rmin_l (Rmin r0 t0) (Rmin r1 t1)).
  pose proof (Rmin_r (Rmin r0 t0) (Rmin r1 t1)).
  pose proof (Rmin_l r0 t0). pose proof (Rmin_r r0 t0).
  pose proof (Rmin_l r1 t1). pose proof (Rmin_r r1 t1).
  pose proof (Rmax_l (Rmax r0 t0) (Rmax r1 t1)).
  pose proof (Rmax_r (Rmax r0 t0) (Rmax r1 t1)).
  pose proof (Rmax_l r0 t0). pose proof (Rmax_r r0 t0).
  pose proof (Rmax_l r1 t1). pose proof (Rmax_r r1 t1).
  destruct i as [|[|i]]; [| |lia]; fold r0 t0 r1 t1; lra.
Qed.

(** X2.  When the grids are computed, no control point leaves the box the
    root and tip sections span: every value of X lies between the smallest
    and the largest of the four x bounds, every value of Y between the
    smallest and the largest of the four y bounds, and every value of Z
    between [z_root] and [z_tip]. *)
Theorem control_points_in_box (c : simple_ffd.config) (g : simple_ffd.grids) :
  simple_ffd.compute_grids c = Ok g ->
  (forall r v, In r (simple_ffd.X g) -> In v r ->
          box.lo (simple_ffd.x_root_range c) (simple_ffd.x_tip_range c) <= v
          <= box.hi (simple_ffd.x_root_range c) (simple_ffd.x_tip_range c))
  /\ (forall r v, In r (simple_ffd.Y g) -> In v r ->
             box.lo (simple_ffd.y_root_range c) (simple_ffd.y_tip_range c) <= v
             <= box.hi (simple_ffd.y_root_range c) (simple_ffd.y_tip_range c))
  /\ (forall r v, In r (simple_ffd.Z g) -> In v r ->
             box.between (simple_ffd.z_root c) (simple_ffd.z_tip c) v).
Proof.
  intros Hg. apply compute_grids_ok_inv in Hg. destruct Hg as (_ & Hl & ->).
  apply levels_ok_true in Hl.
  cbn [lattice.filled simple_ffd.X simple_ffd.Y simple_ffd.Z].
  split; [|split]; intros r v Hr Hv;
    apply in_rows in Hr; destruct Hr as (k & j & Hk & Hj & ->);
    pose proof (t_unit c k Hk) as Ht.
  - apply linspace_between in Hv.
    destruct (box_bounds (simple_ffd.x_root_range c) (simple_ffd.x_tip_range c)
                0 ltac:(lia)) as [R0 T0].
    destruct (box_bounds (simple_ffd.x_root_range c) (simple_ffd.x_tip_range c)
                1 ltac:(lia)) as [R1 T1].
    refine (between_trans _ _ _ _ _ _ _ Hv).
    + exact (between_trans _ _ _ _ _ R0 T0 (interp_between _ _ _ Ht)).
    + exact (between_trans _ _ _ _ _ R1 T1 (interp_between _ _ _ Ht)).
  - apply repeat_spec in Hv. subst v.
    assert (Hj2 : (j < 2)%nat) by lia.
    destruct (box_bounds (simple_ffd.y_root_range c) (simple_ffd.y_tip_range c)
                j Hj2) as [R0 T0].
    exact (between_trans _ _ _ _ _ R0 T0 (interp_between _ _ _ Ht)).
  - apply repeat_spec in Hv. subst v. unfold lattice.z_k.
    now apply interp_between.
Qed.

Lemma control_points_in_box_witness :
  (forall r v, In r (simple_ffd.X (lattice.filled simple_ffd.tutorial)) ->
          In v r ->
          box.lo [-1 / 10; 51 / 10] [74 / 10; 92 / 10] <= v
          <= box.hi [-1 / 10; 51 / 10] [74 / 10; 92 / 10])
  /\ (forall r v, In r (simple_ffd.Y (lattice.filled simple_ffd.tutorial)) ->
             In v r ->
             box.lo [-5 / 10; 5 / 10] [-25 / 100; 25 / 100] <= v
             <= box.hi [-5 / 10; 5 / 10] [-25 / 100; 25 / 100])
  /\ (forall r v, In r (simple_ffd.Z (lattice.filled simple_ffd.tutorial)) ->
             In v r -> box.between (-1 / 100) (1425 / 100) v).
Proof.
  apply (control_points_in_box simple_ffd.tutorial
           (lattice.filled simple_ffd.tutorial)
           (compute_grids_ok simple_ffd.tutorial eq_refl eq_refl)).
Defined.

(** X3.  When both x ranges are ascending, every row of X is strictly
    increasing: the interpolated first bound stays below the interpolated
    second bound at every station, and the samples run from the one to the
    other. *)
Theorem X_rows_increasing (c : simple_ffd.config) (g : simple_ffd.grids)
  (k j : nat) (r : list R) :
  simple_ffd.compute_grids c = Ok g ->
  lattice.at_ (simple_ffd.x_root_range c) 0 < lattice.at_ (simple_ffd.x_root_range c) 1 ->
  lattice.at_ (simple_ffd.x_tip_range c) 0 < lattice.at_ (simple_ffd.x_tip_range c) 1 ->
  (k < simple_ffd.nZ c)%nat -> (j < simple_ffd.nY c)%nat ->
  nth_error (simple_ffd.X g) (k * simple_ffd.nY c + j) = Some r ->
  lattice.xTE c k < lattice.xLE c k
  /\ forall i i' v v', (i < i')%nat ->
       nth_error r i = Some v -> nth_error r i' = Some v' -> v < v'.
Proof.
  intros Hg Hroot Htip Hk Hj Hr.
  apply compute_grids_ok_inv in Hg. destruct Hg as (_ & _ & ->).
  cbn [lattice.filled simple_ffd.X] in Hr. unfold lattice.X_rows in Hr.
  rewrite rows_nth in Hr by assumption. inversion Hr; subst r; clear Hr.
  pose proof (t_unit c k Hk) as Ht.
  assert (Hab : lattice.xTE c k < lattice.xLE c k).
  { unfold lattice.xTE, lattice.xLE.
    set (t := lattice.t c k) in *.
    set (r0 := lattice.at_ (simple_ffd.x_root_range c) 0) in *.
    set (r1 := lattice.at_ (simple_ffd.x_root_range c) 1) in *.
    set (t0 := lattice.at_ (simple_ffd.x_tip_range c) 0) in *.
    set (t1 := lattice.at_ (simple_ffd.x_tip_range c) 1) in *.
    assert (H1 : 0 <= t * (t1 - t0)) by (apply Rmult_le_pos; lra).
    assert (H2 : 0 <= (1 - t) * (r1 - r0)) by (apply Rmult_le_pos; lra).
    destruct (Rlt_dec t 1) as [Hlt|Hge].
    - assert (H3 : 0 < (1 - t) * (r1 - r0)) by (apply Rmult_lt_0_compat; lra).
      lra.
    - assert (H3 : 0 < t * (t1 - t0)) by (apply Rmult_lt_0_compat; lra).
      lra. }
  split; trivial.
  intros i i' v v' Hii Hv Hv'.
  assert (Hi' : (i' < simple_ffd.nX c)%nat).
  { rewrite <- (linspace_length (lattice.xTE c k) (lattice.xLE c k)).
    apply nth_error_Some. congruence. }
  rewrite linspace_nth in Hv, Hv' by lia.
  inversion Hv; inversion Hv'; subst; clear Hv Hv'.
  assert (Hp : 0 < INR (simple_ffd.nX c - 1)) by (apply lt_0_INR; lia).
  assert (Hlt : INR i < INR i') by now apply lt_INR.
  apply Rplus_lt_compat_l. unfold Rdiv.
  apply Rmult_lt_compat_r; [now apply Rinv_0_lt_compat|].
  apply Rmult_lt_compat_r; lra.
Qed.

Lemma X_rows_increasing_witness :
  lattice.xTE simple_ffd.tutorial 3 < lattice.xLE simple_ffd.tutorial 3.
Proof.
  refine (proj1 (X_rows_increasing simple_ffd.tutorial
                   (lattice.filled simple_ffd.tutorial) 3 1
                   (np.linspace (lattice.xTE simple_ffd.tutorial 3)
                      (lattice.xLE simple_ffd.tutorial 3) 6)
                   (compute_grids_ok simple_ffd.tutorial eq_refl eq_refl)
                   _ _ _ _ _)).
  - unfold lattice.at_. simpl. lra.
  - unfold lattice.at_. simpl. lra.
  - simpl. lia.
  - simpl. lia.
  - cbn [lattice.filled simple_ffd.X]. unfold lattice.X_rows.
    apply (rows_nth simple_ffd.tutorial); simpl; lia.
Defined.

(** X4.  The script touches no file but [ffd.xyz]; and when the grid
    computation raises, it stops before the file is opened: the file system
    is left as it was, an existing [ffd.xyz] included. *)
Theorem only_ffd_xyz_is_written (c : simple_ffd.config) (fs : filesystem) :
  (forall p, p <> simple_ffd.filename ->
        fst (simple_ffd.main c fs) p = fs p)
  /\ (forall e, simple_ffd.compute_grids c = Raise e ->
           simple_ffd.main c fs = (fs, Raise e)).
Proof.
  split.
  - intros p Hp.
    destruct (lattice.ranges_ok c && lattice.levels_ok c) eqn:H.
    + destruct (lattice.writable c) eqn:Hw.
      * destruct (main_ok c fs H Hw) as (fs' & -> & _ & Ho). now apply Ho.
      * destruct (main_type_error c fs H Hw) as (fs' & -> & _ & Ho). now apply Ho.
    + now rewrite main_index_error.
  - intros e He. unfold simple_ffd.main, io_bind, io_lift. now rewrite He.
Qed.

(* ################################################################# *)
(** * Further properties of the KS aggregation *)

Lemma exp_le (x y : R) : x <= y -> exp x <= exp y.
Proof.
  intros [H | ->]; [left; now apply exp_increasing|lra].
Qed.

Lemma ln_le (x y : R) : 0 < x -> x <= y -> ln x <= ln y.
Proof.
  intros Hx [H | ->]; [left; now apply ln_increasing|lra].
Qed.

Lemma np_max_cons (x : R) (xs : list R) :
  np.max (x :: xs) = Ok (fold_left Rmax xs x).
Proof. reflexivity. Qed.

(** The maximum [numpy.max] returns is an element that bounds the others;
    there is one such value only. *)
Lemma np_max_spec (g : list R) (m : R) :
  np.max g = Ok m <-> In m g /\ forall x, In x g -> x <= m.
Proof.
  destruct g as [|x xs].
  - split; [discriminate|]. now intros [[] _].
  - rewrite np_max_cons. split.
    + intros H. inversion H; subst. split; [apply fold_max_in|].
      intros y Hy. now apply fold_max_upper.
    + intros [Hin Hub]. f_equal. apply Rle_antisym.
      * apply Hub. apply fold_max_in.
      * now apply fold_max_upper.
Qed.

Lemma np_max_some (g : list R) : g <> [] -> exists m, np.max g = Ok m.
Proof.
  destruct g as [|x xs]; [contradiction|]. intros _. eexists. reflexivity.
Qed.

Lemma sum_le (f h : R -> R) (g : list R) :
  (forall x, In x g -> f x <= h x) ->
  np.sum (map f g) <= np.sum (map h g).
Proof.
  induction g as [|x g IH]; intros H; simpl; [lra|].
  pose proof (H x (or_introl eq_refl)).
  assert (np.sum (map f g) <= np.sum (map h g)).
  { apply IH. intros y Hy. apply H. now right. }
  lra.
Qed.

Lemma sum_const (v : R) (g : list R) :
  np.sum (map (fun _ => v) g) = INR (List.length g) * v.
Proof.
  induction g as [|x g IH]; [simpl; ring|].
  cbn [map np.sum fold_right List.length]. fold (np.sum (map (fun _ => v) g)).
  rewrite IH, S_INR. ring.
Qed.

(** What [ksAgg] returns once the maximum is known. *)
Lemma ksAgg_with_max (g : list R) (rho m : R) :
  np.max g = Ok m -> rho <> 0 ->
  airfoil_opt.ksAgg g rho
  = Ok (m + 1 / rho * ln (np.sum (map (fun gi => exp (rho * (gi - m))) g))).
Proof.
  intros Hm Hrho. unfold airfoil_opt.ksAgg. rewrite Hm. cbn [bind].
  destruct (Req_dec_T rho 0); [contradiction|reflexivity].
Qed.

(** The shift by the maximum cancels: the value is the log-sum-exp. *)
Lemma ksAgg_lse (g : list R) (rho : R) :
  g <> [] -> rho <> 0 ->
  airfoil_opt.ksAgg g rho = Ok (airfoil_opt.ksAgg_naive g rho).
Proof.
  intros Hg Hrho. destruct (np_max_some g Hg) as [m Hm].
  rewrite (ksAgg_with_max g rho m Hm Hrho). f_equal.
  unfold airfoil_opt.ksAgg_naive.
  assert (Hs : np.sum (map (fun gi => exp (rho * (gi - m))) g)
               = exp (- (rho * m)) * np.sum (map (fun gi => exp (rho * gi)) g)).
  { rewrite <- sum_scal. f_equal. apply map_ext. intros a.
    rewrite <- exp_plus. f_equal. ring. }
  rewrite Hs, ln_mult, ln_exp.
  - field. exact Hrho.
  - apply exp_pos.
  - apply sum_pos; [intros; apply exp_pos|exact Hg].
Qed.

(** Both bounds of the aggregate for a positive weight. *)
Lemma ksAgg_between (g : list R) (rho m : R) :
  np.max g = Ok m -> 0 < rho ->
  exists v,
    airfoil_opt.ksAgg g rho = Ok v
    /\ m <= v <= m + ln (INR (List.length g)) / rho.
Proof.
  intros Hm Hrho. eexists. split; [apply ksAgg_with_max; [exact Hm|lra]|].
  apply np_max_spec in Hm. destruct Hm as [Hin Hub].
  set (f := fun gi => exp (rho * (gi - m))).
  assert (Hf : forall y, 0 < f y) by (intros y; apply exp_pos).
  assert (H1 : 1 <= np.sum (map f g)).
  { replace 1 with (f m).
    - now apply sum_ge_term.
    - unfold f. replace (rho * (m - m)) with 0 by ring. apply exp_0. }
  assert (Hn : np.sum (map f g) <= INR (List.length g)).
  { rewrite <- (Rmult_1_r (INR (List.length g))), <- sum_const.
    apply sum_le. intros x Hx. unfold f. rewrite <- exp_0.
    apply exp_le. pose proof (Hub x Hx). nra. }
  assert (H0 : 0 <= ln (np.sum (map f g))).
  { rewrite <- ln_1. apply ln_le; lra. }
  assert (Hl : ln (np.sum (map f g)) <= ln (INR (List.length g))).
  { apply ln_le; lra. }
  assert (Hr : 0 < / rho) by now apply Rinv_0_lt_compat.
  unfold Rdiv. rewrite Rmult_1_l. split.
  - assert (0 <= / rho * ln (np.sum (map f g))) by (apply Rmult_le_pos; lra).
    lra.
  - apply Rplus_le_compat_l. rewrite (Rmult_comm (ln (INR _))).
    apply Rmult_le_compat_l; lra.
Qed.

(** X5.  For a nonempty [g] and [rho > 0], [ksAgg(g, rho)] exceeds the
    maximum of [g] by at most [ln(n) / rho], [n] the number of values. *)
Theorem ksAgg_upper_bound (g : list R) (rho : R) :
  g <> [] -> 0 < rho ->
  exists m v,
    np.max g = Ok m
    /\ airfoil_opt.ksAgg g rho = Ok v
    /\ v <= m + ln (INR (List.length g)) / rho.
Proof.
  intros Hg Hrho. destruct (np_max_some g Hg) as [m Hm].
  destruct (ksAgg_between g rho m Hm Hrho) as (v & Hv & _ & Hub).
  now exists m, v.
Qed.

Lemma ksAgg_upper_bound_witness :
  exists m v,
    np.max [1; 3; 2] = Ok m
    /\ airfoil_opt.ksAgg [1; 3; 2] 5 = Ok v
    /\ v <= m + ln (INR 3) / 5.
Proof.
  apply (ksAgg_upper_bound [1; 3; 2] 5); [discriminate|lra].
Defined.

(** X6.  For a nonempty [g], [ksAgg(g, rho)] tends to the maximum of [g]
    as [rho] grows: for every [eps > 0] there is a weight from which on the
    aggregate lies in [[max g, max g + eps)]. *)
Theorem ksAgg_tends_to_max (g : list R) :
  g <> [] ->
  exists m,
    np.max g = Ok m
    /\ forall eps, 0 < eps ->
         exists rho0, 0 < rho0
           /\ forall rho, rho0 <= rho ->
                exists v, airfoil_opt.ksAgg g rho = Ok v /\ m <= v < m + eps.
Proof.
  intros Hg. destruct (np_max_some g Hg) as [m Hm]. exists m.
  split; trivial. intros eps Heps.
  set (L := ln (INR (List.length g))).
  assert (HL : 0 <= L).
  { unfold L. rewrite <- ln_1. apply ln_le; [lra|].
    destruct g as [|x xs]; [contradiction|].
    change 1 with (INR 1). apply le_INR. simpl. lia. }
  assert (Hq : 0 <= L / eps).
  { apply Rmult_le_pos; [trivial|]. left. now apply Rinv_0_lt_compat. }
  exists (L / eps + 1). split; [lra|].
  intros rho Hrho.
  assert (Hpos : 0 < rho) by lra.
  destruct (ksAgg_between g rho m Hm Hpos) as (v & Hv & Hlo & Hhi).
  exists v. split; trivial. split; trivial.
  fold L in Hhi.
  assert (L / rho < eps).
  { apply Rmult_lt_reg_r with rho; trivial.
    unfold Rdiv. rewrite Rmult_assoc, Rinv_l by lra.
    assert (L = L / eps * eps) by (field; lra).
    nra. }
  lra.
Qed.

Lemma ksAgg_tends_to_max_witness :
  exists m,
    np.max [1; 3; 2] = Ok m
    /\ forall eps, 0 < eps ->
         exists rho0, 0 < rho0
           /\ forall rho, rho0 <= rho ->
                exists v, airfoil_opt.ksAgg [1; 3; 2] rho = Ok v
                     /\ m <= v < m + eps.
Proof.
  apply (ksAgg_tends_to_max [1; 3; 2]). discriminate.
Defined.

Lemma sum_perm (a b : list R) : Permutation a b -> np.sum a = np.sum b.
Proof.
  induction 1 as [|x a b _ IH|x y a|a b c _ IH1 _ IH2]; simpl.
  - reflexivity.
  - fold (np.sum a) (np.sum b). now rewrite IH.
  - fold (np.sum a). ring.
  - congruence.
Qed.

Lemma ksAgg_naive_le (g g' : list R) (rho : R) :
  0 < rho -> g <> [] -> Forall2 Rle g g' ->
  airfoil_opt.ksAgg_naive g rho <= airfoil_opt.ksAgg_naive g' rho.
Proof.
  intros Hrho Hg H. unfold airfoil_opt.ksAgg_naive.
  assert (Hr : 0 < 1 / rho) by (apply Rdiv_lt_0_compat; lra).
  apply Rmult_le_compat_l; [lra|].
  apply ln_le.
  - apply sum_pos; [intros; apply exp_pos|exact Hg].
  - clear Hg. induction H as [|x y g g' Hxy _ IH]; simpl; [lra|].
    fold (np.sum (map (fun gi => exp (rho * gi)) g)).
    fold (np.sum (map (fun gi => exp (rho * gi)) g')).
    assert (exp (rho * x) <= exp (rho * y)) by (apply exp_le; nra).
    lra.
Qed.

(** X7.  Adding a constant to every value adds it to the aggregate:
    [ksAgg(g + c, rho) = ksAgg(g, rho) + c], for a nonempty [g] and a
    nonzero [rho]. *)
Theorem ksAgg_shift (g : list R) (rho c : R) :
  g <> [] -> rho <> 0 ->
  exists v,
    airfoil_opt.ksAgg g rho = Ok v
    /\ airfoil_opt.ksAgg (map (fun x => x + c) g) rho = Ok (v + c).
Proof.
  intros Hg Hrho. destruct (np_max_some g Hg) as [m Hm].
  assert (Hm' : np.max (map (fun x => x + c) g) = Ok (m + c)).
  { apply np_max_spec. apply np_max_spec in Hm. destruct Hm as [Hin Hub]. split.
    - apply in_map_iff. now exists m.
    - intros y Hy. apply in_map_iff in Hy. destruct Hy as (x & <- & Hx).
      pose proof (Hub x Hx). lra. }
  eexists. split; [exact (ksAgg_with_max g rho m Hm Hrho)|].
  rewrite (ksAgg_with_max _ rho (m + c) Hm' Hrho). f_equal.
  rewrite map_map.
  replace (map (fun x => exp (rho * (x + c - (m + c)))) g)
    with (map (fun gi => exp (rho * (gi - m))) g).
  - ring.
  - apply map_ext. intros a. f_equal. ring.
Qed.

Lemma ksAgg_shift_witness :
  exists v,
    airfoil_opt.ksAgg [1; 3; 2] 5 = Ok v
    /\ airfoil_opt.ksAgg (map (fun x => x + 10) [1; 3; 2]) 5 = Ok (v + 10).
Proof.
  apply (ksAgg_shift [1; 3; 2] 5 10); [discriminate|lra].
Defined.

(** X8.  The aggregate does not depend on the order of the values. *)
Theorem ksAgg_permutation (g g' : list R) (rho : R) :
  Permutation g g' ->
  airfoil_opt.ksAgg g rho = airfoil_opt.ksAgg g' rho.
Proof.
  intros Hp. unfold airfoil_opt.ksAgg.
  assert (Hmax : np.max g = np.max g').
  { destruct g as [|x xs].
    - apply Permutation_nil in Hp. now subst g'.
    - destruct (np_max_some (x :: xs)) as [m Hm]; [discriminate|].
      rewrite Hm. symmetry. apply np_max_spec.
      apply np_max_spec in Hm. destruct Hm as [Hin Hub]. split.
      + now apply (Permutation_in _ Hp).
      + intros y Hy. apply Hub.
        now apply (Permutation_in _ (Permutation_sym Hp)). }
  rewrite <- Hmax. destruct (np.max g) as [m|e]; cbn [bind]; trivial.
  destruct (Req_dec_T rho 0); trivial.
  do 4 f_equal. apply sum_perm. now apply Permutation_map.
Qed.

Lemma ksAgg_permutation_witness :
  airfoil_opt.ksAgg [1; 3; 2] 5 = airfoil_opt.ksAgg [3; 1; 2] 5.
Proof.
  apply (ksAgg_permutation [1; 3; 2] [3; 1; 2] 5).
  apply perm_swap.
Defined.

(** X9.  The aggregate is monotone: raising values, position by position,
    does not lower it ([rho > 0]). *)
Theorem ksAgg_monotone (g g' : list R) (rho : R) :
  g <> [] -> 0 < rho -> Forall2 Rle g g' ->
  exists v v',
    airfoil_opt.ksAgg g rho = Ok v
    /\ airfoil_opt.ksAgg g' rho = Ok v'
    /\ v <= v'.
Proof.
  intros Hg Hrho H.
  assert (Hg' : g' <> []).
  { intros ->. inversion H. now subst. }
  exists (airfoil_opt.ksAgg_naive g rho), (airfoil_opt.ksAgg_naive g' rho).
  split; [apply ksAgg_lse; trivial; lra|].
  split; [apply ksAgg_lse; trivial; lra|].
  now apply ksAgg_naive_le.
Qed.

Lemma ksAgg_monotone_witness :
  exists v v',
    airfoil_opt.ksAgg [1; 3; 2] 5 = Ok v
    /\ airfoil_opt.ksAgg [1; 4; 2] 5 = Ok v'
    /\ v <= v'.
Proof.
  apply (ksAgg_monotone [1; 3; 2] [1; 4; 2] 5); [discriminate|lra|].
  repeat constructor; lra.
Defined.

(** X10.  Scaling the values by [a > 0] scales the aggregate, with the
    weight scaled the other way: [ksAgg(a g, rho) = a ksAgg(g, a rho)]. *)
Theorem ksAgg_scale (g : list R) (rho a : R) :
  g <> [] -> rho <> 0 -> 0 < a ->
  exists v,
    airfoil_opt.ksAgg g (a * rho) = Ok v
    /\ airfoil_opt.ksAgg (map (fun x => a * x) g) rho = Ok (a * v).
Proof.
  intros Hg Hrho Ha.
  assert (Hg' : map (fun x => a * x) g <> []).
  { destruct g; [contradiction|discriminate]. }
  exists (airfoil_opt.ksAgg_naive g (a * rho)).
  split; [apply ksAgg_lse; trivial; nra|].
  rewrite ksAgg_lse by assumption. f_equal.
  unfold airfoil_opt.ksAgg_naive. rewrite map_map.
  replace (map (fun x => exp (rho * (a * x))) g)
    with (map (fun gi => exp (a * rho * gi)) g).
  - field. split; lra.
  - apply map_ext. intros x. f_equal. ring.
Qed.

Lemma ksAgg_scale_witness :
  exists v,
    airfoil_opt.ksAgg [1; 3; 2] (2 * 5) = Ok v
    /\ airfoil_opt.ksAgg (map (fun x => 2 * x) [1; 3; 2]) 5 = Ok (2 * v).
Proof.
  apply (ksAgg_scale [1; 3; 2] 5 2); [discriminate|lra|lra].
Defined.


(* ################################################################# *)
(** * Further properties of the driver's set-up *)

Lemma normalize_cases (a : airfoil_opt.args) :
  (airfoil_opt.zeroLift (airfoil_opt.normalize a) = true
   /\ airfoil_opt.cl (airfoil_opt.normalize a) = 0
   /\ (airfoil_opt.zeroLift a = true \/ airfoil_opt.cl a = 0))
  \/ (airfoil_opt.zeroLift (airfoil_opt.normalize a) = false
      /\ airfoil_opt.cl (airfoil_opt.normalize a) = airfoil_opt.cl a
      /\ airfoil_opt.cl a <> 0
      /\ airfoil_opt.zeroLift a = false).
Proof.
  unfold airfoil_opt.normalize.
  destruct (airfoil_opt.zeroLift a) eqn:Hz;
    destruct (Req_dec_T (airfoil_opt.cl a) 0) as [Hc|Hc];
    cbn [andb negb airfoil_opt.set_cl airfoil_opt.set_zeroLift
         airfoil_opt.zeroLift airfoil_opt.cl];
    rewrite ?Hz; auto 6.
Qed.

Lemma normalize_fixed (b : airfoil_opt.args) :
  (airfoil_opt.zeroLift b = true <-> airfoil_opt.cl b = 0) ->
  airfoil_opt.normalize b = b.
Proof.
  intros [H1 H2]. unfold airfoil_opt.normalize.
  destruct (airfoil_opt.zeroLift b) eqn:Hz;
    destruct (Req_dec_T (airfoil_opt.cl b) 0) as [Hc|Hc]; cbn [andb negb];
    trivial.
  - now destruct Hc; apply H1.
  - discriminate (H2 Hc).
Qed.

(** X12.  Normalising the arguments twice is normalising them once. *)
Theorem normalize_idempotent (a : airfoil_opt.args) :
  airfoil_opt.normalize (airfoil_opt.normalize a) = airfoil_opt.normalize a.
Proof.
  apply normalize_fixed.
  destruct (normalize_cases a) as [(Hz & Hc & _)|(Hz & Hc & Hne & _)];
    rewrite Hz, Hc; split; auto; try discriminate; contradiction.
Qed.

Lemma normalize_preTrim (a : airfoil_opt.args) :
  airfoil_opt.preTrim (airfoil_opt.normalize a) = airfoil_opt.preTrim a.
Proof.
  unfold airfoil_opt.normalize.
  destruct (airfoil_opt.zeroLift a);
    destruct (Req_dec_T (airfoil_opt.cl a) 0); reflexivity.
Qed.

(** X13.  On the normalised arguments the trim solve is run exactly when
    [--preTrim] was given without [--zeroLift] and with a nonzero [--cl];
    its target is then that [cl]: [solveCL] is never asked for zero lift. *)
Theorem trim_solve_target (a : airfoil_opt.args) :
  (forall v,
      airfoil_driver.trim_target (airfoil_opt.normalize a) = Some v <->
      airfoil_opt.preTrim a = true /\ airfoil_opt.zeroLift a = false
      /\ airfoil_opt.cl a <> 0 /\ v = airfoil_opt.cl a)
  /\ airfoil_driver.trim_target (airfoil_opt.normalize a) <> Some 0.
Proof.
  assert (H : forall v,
             airfoil_driver.trim_target (airfoil_opt.normalize a) = Some v <->
             airfoil_opt.preTrim a = true /\ airfoil_opt.zeroLift a = false
             /\ airfoil_opt.cl a <> 0 /\ v = airfoil_opt.cl a).
  { intros v. unfold airfoil_driver.trim_target. rewrite normalize_preTrim.
    destruct (normalize_cases a) as [(Hz & Hc & Hor)|(Hz & Hc & Hne & Hz0)];
      rewrite Hz; cbn [negb].
    - rewrite andb_false_r. split; [discriminate|].
      intros (_ & Hzr & Hnr & _). destruct Hor; congruence.
    - rewrite andb_true_r. destruct (airfoil_opt.preTrim a).
      + split.
        * intros E. inversion E. rewrite Hc. auto.
        * intros (_ & _ & _ & ->). now rewrite Hc.
      + split; [discriminate|]. intros (Hp & _). discriminate Hp. }
  split; trivial.
  intros E. apply H in E. destruct E as (_ & _ & Hne & E0). congruence.
Qed.

(** X14.  On the normalised arguments the clip of the start angle is
    inactive; the start angle is [0] exactly when [cl = 0] and [1]
    otherwise; the design variable [alpha] is left out exactly when
    [cl = 0], and when it is added the start angle lies within its
    bounds. *)
Theorem alpha_set_up (a : airfoil_opt.args) :
  let a' := airfoil_opt.normalize a in
  airfoil_driver.alpha a' = airfoil_driver.alpha0 a'
  /\ (airfoil_opt.cl a' = 0 -> airfoil_driver.alpha a' = 0)
  /\ (airfoil_opt.cl a' <> 0 -> airfoil_driver.alpha a' = 1)
  /\ (airfoil_driver.alpha_dv a' = None <-> airfoil_opt.cl a' = 0)
  /\ (forall lo hi, airfoil_driver.alpha_dv a' = Some (lo, hi) ->
               lo <= airfoil_driver.alpha a' <= hi).
Proof.
  intros a'.
  assert (Hclip : forall x, -4 <= x <= 4 -> airfoil_driver.clip x (-4) 4 = x).
  { intros x Hx. unfold airfoil_driver.clip.
    rewrite (Rmax_left x (-4)) by lra. apply Rmin_right. lra. }
  unfold airfoil_driver.alpha, airfoil_driver.alpha_dv, airfoil_driver.alpha0.
  destruct (normalize_cases a) as [(Hz & Hc & _)|(Hz & Hc & Hne & _)];
    fold a' in Hz, Hc; rewrite Hz; cbn [negb]; rewrite Hclip by lra.
  - split; [reflexivity|]. split; [reflexivity|].
    split; [intros Hne; contradiction|].
    split; [split; trivial|]. intros lo hi E. discriminate E.
  - assert (Hc' : airfoil_opt.cl a' <> 0) by congruence.
    split; [reflexivity|]. split; [intros H0; contradiction|].
    split; [reflexivity|].
    split; [split; [discriminate|intros H0; contradiction]|].
    intros lo hi E. inversion E; subst. lra.
Qed.

(* ================================================================= *)
(** ** The index sets of the geometric constraints *)

Lemma getitem_py_nat {A : Type} (a : list A) (i : nat) :
  airfoil_driver.getitem_py a (Z.of_nat i) = getitem a i.
Proof.
  unfold airfoil_driver.getitem_py.
  destruct (Z.leb_spec 0 (Z.of_nat i)); [|lia].
  now rewrite Nat2Z.id.
Qed.

Lemma getitem_py_last {A : Type} (a : list A) :
  airfoil_driver.getitem_py a (-1)
  = match a with
    | [] => Raise IndexError
    | _ :: _ => getitem a (List.length a - 1)
    end.
Proof.
  unfold airfoil_driver.getitem_py.
  destruct (Z.leb_spec 0 (-1)); [lia|].
  destruct a as [|x a].
  - reflexivity.
  - destruct (Z.leb_spec (- Z.of_nat (List.length (x :: a))) (-1)) as [_|Hlt].
    + f_equal. cbn [List.length]. lia.
    + cbn [List.length] in Hlt. lia.
Qed.

Section IndexSets.

Variable l : airfoil_driver.array3.
Variables n1 n2 : nat.
Hypothesis Hreg : airfoil_driver.regular n1 n2 l.

Lemma plane_at (i : nat) :
  (i < List.length l)%nat ->
  nth_error l i = Some (nth i l [])
  /\ List.length (nth i l []) = n1
  /\ forall j, (j < n1)%nat ->
        nth_error (nth i l []) j = Some (nth j (nth i l []) [])
        /\ List.length (nth j (nth i l []) []) = n2.
Proof.
  intros Hi.
  assert (Hn : nth_error l i = Some (nth i l [])) by now apply nth_error_nth'.
  pose proof (proj1 (Forall_forall _ _) Hreg _ (nth_error_In _ _ Hn)) as [H1 H2].
  split; [exact Hn|]. split; [exact H1|].
  intros j Hj.
  assert (Hm : nth_error (nth i l []) j = Some (nth j (nth i l []) [])).
  { apply nth_error_nth'. lia. }
  split; [exact Hm|].
  exact (proj1 (Forall_forall _ _) H2 _ (nth_error_In _ _ Hm)).
Qed.

(** An index inside the array is read; an index beyond the second or the
    third axis raises. *)
Lemma getitem3_in (i j k : nat) :
  (i < List.length l)%nat -> (j < n1)%nat -> (k < n2)%nat ->
  airfoil_driver.getitem3 l (Z.of_nat i) (Z.of_nat j) (Z.of_nat k)
  = Ok (airfoil_driver.at3 l i j k).
Proof.
  intros Hi Hj Hk. destruct (plane_at i Hi) as (Hp & _ & Hrows).
  destruct (Hrows j Hj) as (Hr & Hlen).
  unfold airfoil_driver.getitem3. rewrite getitem_py_nat.
  rewrite (getitem_some _ _ _ Hp). cbn [bind]. rewrite getitem_py_nat.
  rewrite (getitem_some _ _ _ Hr). cbn [bind]. rewrite getitem_py_nat.
  apply getitem_some. unfold airfoil_driver.at3.
  apply nth_error_nth'. lia.
Qed.

Lemma getitem3_out (i j k : nat) :
  (i < List.length l)%nat -> (n1 <= j)%nat \/ (n2 <= k)%nat ->
  airfoil_driver.getitem3 l (Z.of_nat i) (Z.of_nat j) (Z.of_nat k)
  = Raise IndexError.
Proof.
  intros Hi Hjk. destruct (plane_at i Hi) as (Hp & Hlen & Hrows).
  unfold airfoil_driver.getitem3. rewrite getitem_py_nat.
  rewrite (getitem_some _ _ _ Hp). cbn [bind]. rewrite getitem_py_nat.
  destruct (le_lt_dec n1 j) as [Hj|Hj].
  - rewrite getitem_out by lia. reflexivity.
  - destruct (Hrows j Hj) as (Hr & Hlen2).
    rewrite (getitem_some _ _ _ Hr). cbn [bind]. rewrite getitem_py_nat.
    apply getitem_out. destruct Hjk; lia.
Qed.

Lemma getitem3_last (j k : nat) :
  l <> [] -> (j < n1)%nat -> (k < n2)%nat ->
  airfoil_driver.getitem3 l (-1) (Z.of_nat j) (Z.of_nat k)
  = Ok (airfoil_driver.at3 l (List.length l - 1) j k).
Proof.
  intros Hl Hj Hk.
  assert (Hi : (List.length l - 1 < List.length l)%nat).
  { destruct l; [contradiction|simpl; lia]. }
  rewrite <- (getitem3_in _ j k Hi Hj Hk).
  unfold airfoil_driver.getitem3. rewrite getitem_py_last, getitem_py_nat.
  destruct l; [contradiction|reflexivity].
Qed.

(** One loop over the first axis, from plane [s] on. *)
Lemma append_loop_ok (j k j' k' : nat) (n : nat) :
  (j < n1)%nat -> (k < n2)%nat -> (j' < n1)%nat -> (k' < n2)%nat ->
  forall (s : nat) (A B : list Z),
    (s + n <= List.length l)%nat ->
    for_each (seq s n)
      (fun i => airfoil_driver.append_both l
                  (Z.of_nat i) (Z.of_nat j) (Z.of_nat k)
                  (Z.of_nat i) (Z.of_nat j') (Z.of_nat k'))
      (A, B)
    = Ok (A ++ map (fun i => airfoil_driver.at3 l i j k) (seq s n),
          B ++ map (fun i => airfoil_driver.at3 l i j' k') (seq s n)).
Proof.
  intros Hj Hk Hj' Hk'. induction n as [|n IH]; intros s A B Hs.
  - simpl. now rewrite !app_nil_r.
  - cbn [seq for_each map]. unfold airfoil_driver.append_both at 1.
    rewrite !getitem3_in by (trivial; lia). cbn [bind fst snd].
    rewrite IH by lia. now rewrite <- !app_assoc.
Qed.

Lemma append_loop_bad (j k j' k' : nat) (n : nat) (A B : list Z) :
  (0 < n <= List.length l)%nat ->
  (n1 <= j)%nat \/ (n2 <= k)%nat \/ (n1 <= j')%nat \/ (n2 <= k')%nat ->
  for_each (seq 0 n)
    (fun i => airfoil_driver.append_both l
                (Z.of_nat i) (Z.of_nat j) (Z.of_nat k)
                (Z.of_nat i) (Z.of_nat j') (Z.of_nat k'))
    (A, B)
  = Raise IndexError.
Proof.
  intros Hn Hbad. destruct n as [|n]; [lia|].
  cbn [seq for_each]. unfold airfoil_driver.append_both at 1.
  destruct (le_lt_dec n1 j) as [Hj|Hj];
    [rewrite getitem3_out by (auto; lia); reflexivity|].
  destruct (le_lt_dec n2 k) as [Hk|Hk];
    [rewrite getitem3_out by (auto; lia); reflexivity|].
  rewrite getitem3_in by (trivial; lia). cbn [bind].
  rewrite getitem3_out; [reflexivity|lia|].
  destruct Hbad as [H|[H|[H|H]]]; auto; lia.
Qed.

End IndexSets.

(** X15.  On an index array with at least one plane, two rows per plane and
    one entry per row, the leading- and trailing-edge constraint pairs the
    entries [(0, 0, 0)] and [(0, 1, 0)] of the first plane and of the last
    plane: set A holds the row-0 indices, set B the row-1 indices, two
    each.  On an empty array, or with fewer than two rows or no entry, the
    set-up raises [IndexError]. *)
Theorem le_te_index_sets (n1 n2 : nat) (l : airfoil_driver.array3) :
  airfoil_driver.regular n1 n2 l ->
  (l <> [] -> (2 <= n1)%nat -> (1 <= n2)%nat ->
   airfoil_driver.le_te_sets l
   = Ok ([airfoil_driver.at3 l 0 0 0;
          airfoil_driver.at3 l (List.length l - 1) 0 0],
         [airfoil_driver.at3 l 0 1 0;
          airfoil_driver.at3 l (List.length l - 1) 1 0]))
  /\ (l = [] \/ (n1 < 2)%nat \/ n2 = 0%nat ->
      airfoil_driver.le_te_sets l = Raise IndexError).
Proof.
  intros Hreg. split.
  - intros Hl H1 H2.
    assert (H0 : (0 < List.length l)%nat).
    { destruct l; [contradiction|simpl; lia]. }
    pose proof (getitem3_in l n1 n2 Hreg 0 0 0 H0 ltac:(lia) ltac:(lia)) as G00.
    pose proof (getitem3_in l n1 n2 Hreg 0 1 0 H0 ltac:(lia) ltac:(lia)) as G01.
    pose proof (getitem3_last l n1 n2 Hreg 0 0 Hl ltac:(lia) ltac:(lia)) as L00.
    pose proof (getitem3_last l n1 n2 Hreg 1 0 Hl ltac:(lia) ltac:(lia)) as L01.
    simpl Z.of_nat in G00, G01, L00, L01.
    unfold airfoil_driver.le_te_sets, range. cbn [seq for_each].
    unfold airfoil_driver.append_both. simpl Z.of_nat.
    rewrite G00. cbn [bind]. rewrite G01. cbn [bind fst snd app].
    rewrite L00. cbn [bind]. rewrite L01. reflexivity.
  - intros Hbad. unfold airfoil_driver.le_te_sets.
    destruct l as [|p l']; [reflexivity|].
    unfold range. cbn [seq for_each].
    unfold airfoil_driver.append_both. simpl Z.of_nat.
    destruct (le_lt_dec n1 0) as [Hj|Hj].
    + pose proof (getitem3_out (p :: l') n1 n2 Hreg 0 0 0) as O.
      simpl Z.of_nat in O. rewrite O; [reflexivity|simpl; lia|now left].
    + destruct (le_lt_dec n2 0) as [Hk|Hk].
      * pose proof (getitem3_out (p :: l') n1 n2 Hreg 0 0 0) as O.
        simpl Z.of_nat in O. rewrite O; [reflexivity|simpl; lia|now right].
      * pose proof (getitem3_in (p :: l') n1 n2 Hreg 0 0 0) as I.
        simpl Z.of_nat in I. rewrite I by (simpl; lia). cbn [bind].
        pose proof (getitem3_out (p :: l') n1 n2 Hreg 0 1 0) as O.
        simpl Z.of_nat in O. rewrite O; [reflexivity|simpl; lia|].
        destruct Hbad as [Hl|[Hl|Hl]]; [discriminate|left; lia|lia].
Qed.

Lemma le_te_index_sets_witness :
  airfoil_driver.le_te_sets
    [[[0; 1]; [2; 3]]; [[4; 5]; [6; 7]]; [[8; 9]; [10; 11]]]%Z
  = Ok ([0; 8], [2; 10])%Z.
Proof.
  refine (proj1 (le_te_index_sets 2 2
                   [[[0; 1]; [2; 3]]; [[4; 5]; [6; 7]]; [[8; 9]; [10; 11]]]%Z _)
            _ _ _).
  - repeat constructor.
  - discriminate.
  - lia.
  - lia.
Defined.

(** X16.  On an index array whose planes have at least two rows of at least
    two entries, the spanwise constraint pairs, for every plane [i] and
    both rows [j = 0, 1], entry [(i, j, 0)] in set A with entry [(i, j, 1)]
    at the same position of set B, row 0 first and then row 1: both sets
    have twice as many indices as there are planes, and no entry of a
    third or later layer is used.  With a plane but fewer than two rows or
    fewer than two entries per row, the set-up raises [IndexError]. *)
Theorem spanwise_index_sets (n1 n2 : nat) (l : airfoil_driver.array3) :
  airfoil_driver.regular n1 n2 l ->
  ((2 <= n1)%nat -> (2 <= n2)%nat ->
   airfoil_driver.spanwise_sets l
   = Ok (map (fun i => airfoil_driver.at3 l i 0 0) (seq 0 (List.length l))
         ++ map (fun i => airfoil_driver.at3 l i 1 0) (seq 0 (List.length l)),
         map (fun i => airfoil_driver.at3 l i 0 1) (seq 0 (List.length l))
         ++ map (fun i => airfoil_driver.at3 l i 1 1) (seq 0 (List.length l))))
  /\ (l <> [] -> (n1 < 2)%nat \/ (n2 < 2)%nat ->
      airfoil_driver.spanwise_sets l = Raise IndexError).
Proof.
  intros Hreg.
  pose proof (append_loop_ok l n1 n2 Hreg 0 0 0 1 (List.length l)) as R0.
  pose proof (append_loop_ok l n1 n2 Hreg 1 0 1 1 (List.length l)) as R1.
  pose proof (append_loop_bad l n1 n2 Hreg 0 0 0 1 (List.length l)) as B0.
  pose proof (append_loop_bad l n1 n2 Hreg 1 0 1 1 (List.length l)) as B1.
  simpl Z.of_nat in R0, R1, B0, B1.
  unfold airfoil_driver.spanwise_sets, range. split.
  - intros H1 H2.
    rewrite R0 by lia. cbn [bind]. rewrite R1 by lia. reflexivity.
  - intros Hl Hbad.
    assert (H0 : (0 < List.length l <= List.length l)%nat).
    { destruct l; [contradiction|simpl; lia]. }
    destruct (le_lt_dec n1 0) as [Hz|Hz]; [rewrite B0 by (trivial; lia); reflexivity|].
    destruct (le_lt_dec n2 1) as [Hk|Hk]; [rewrite B0 by (trivial; lia); reflexivity|].
    rewrite R0 by lia. cbn [bind]. apply B1; trivial. lia.
Qed.

Lemma spanwise_index_sets_witness :
  airfoil_driver.spanwise_sets
    [[[0; 1]; [2; 3]]; [[4; 5]; [6; 7]]; [[8; 9]; [10; 11]]]%Z
  = Ok ([0; 4; 8; 2; 6; 10], [1; 5; 9; 3; 7; 11])%Z.
Proof.
  refine (proj1 (spanwise_index_sets 2 2
                   [[[0; 1]; [2; 3]]; [[4; 5]; [6; 7]]; [[8; 9]; [10; 11]]]%Z _)
            _ _).
  - repeat constructor.
  - lia.
  - lia.
Defined.

(* ================================================================= *)
(** ** [objCon] *)

Lemma dict_set_same (d : airfoil_driver.dict) (key : string)
  (v : airfoil_driver.pyval) :
  airfoil_driver.dict_set d key v key = Some v.
Proof. unfold airfoil_driver.dict_set. now rewrite String.eqb_refl. Qed.

Lemma dict_set_other (d : airfoil_driver.dict) (key k : string)
  (v : airfoil_driver.pyval) :
  k <> key -> airfoil_driver.dict_set d key v k = d k.
Proof.
  intros H. unfold airfoil_driver.dict_set.
  apply String.eqb_neq in H. now rewrite H.
Qed.

Lemma rho_objCon_pos : 0 < 10 ^ 4.
Proof. apply pow_lt. lra. Qed.

Section ObjCon.

Variables cd_key cl_key : string.
Variable target : R.
Variable funcs : airfoil_driver.dict.

Hypothesis cl_key_fresh : cl_key <> "obj"%string.

(** X17.  When [funcs] holds the drag, the lift and a nonempty array of
    thicknesses, [objCon] returns with [obj] set to the drag, [cl_con_fc]
    to the lift minus the target, and [KSThickness] to a value between the
    largest thickness and the largest thickness plus [ln(n) / 10^4]; every
    other key keeps what it held. *)
Theorem objCon_returns (cd lift t : airfoil_driver.pyval) :
  funcs cd_key = Some cd ->
  funcs cl_key = Some lift ->
  funcs airfoil_driver.thickness_key = Some t ->
  airfoil_driver.elements t <> [] ->
  exists d m ks,
    airfoil_driver.objCon cd_key cl_key target funcs = (d, None)
    /\ d "obj"%string = Some cd
    /\ d airfoil_driver.cl_con_key = Some (airfoil_driver.sub_scalar lift target)
    /\ d "KSThickness"%string = Some (airfoil_driver.Num ks)
    /\ np.max (airfoil_driver.elements t) = Ok m
    /\ m <= ks <= m + ln (INR (List.length (airfoil_driver.elements t))) / 10 ^ 4
    /\ forall k, k <> "obj"%string -> k <> airfoil_driver.cl_con_key ->
            k <> "KSThickness"%string -> d k = funcs k.
Proof.
  intros Hcd Hcl Ht Hne.
  destruct (np_max_some _ Hne) as [m Hm].
  destruct (ksAgg_between _ (10 ^ 4) m Hm rho_objCon_pos) as (ks & Hks & Hb).
  eexists. exists m, ks. split.
  - unfold airfoil_driver.objCon. rewrite Hcd. cbv zeta.
    rewrite dict_set_other, Hcl by exact cl_key_fresh.
    rewrite !dict_set_other, Ht by discriminate.
    rewrite Hks. reflexivity.
  - split; [now rewrite !dict_set_other, dict_set_same by discriminate|].
    split; [now rewrite dict_set_other, dict_set_same by discriminate|].
    split; [apply dict_set_same|].
    split; [exact Hm|]. split; [exact Hb|].
    intros k H1 H2 H3. now rewrite !dict_set_other by assumption.
Qed.


End ObjCon.

Lemma objCon_returns_witness :
  exists d m ks,
    airfoil_driver.objCon "fc_cd" "fc_cl" (1 / 2) airfoil_driver.sample_funcs
    = (d, None)
    /\ d "obj"%string = Some (airfoil_driver.Num (1 / 100))
    /\ d "KSThickness"%string = Some (airfoil_driver.Num ks)
    /\ np.max [1 / 10; 12 / 100; 11 / 100] = Ok m
    /\ m <= ks <= m + ln (INR 3) / 10 ^ 4.
Proof.
  destruct (objCon_returns "fc_cd" "fc_cl" (1 / 2) airfoil_driver.sample_funcs
              ltac:(discriminate)
              (airfoil_driver.Num (1 / 100)) (airfoil_driver.Num (1 / 2))
              (airfoil_driver.Arr [1 / 10; 12 / 100; 11 / 100])
              eq_refl eq_refl eq_refl ltac:(discriminate))
    as (d & m & ks & Hrun & Hobj & _ & Hks & Hm & Hb & _).
  exists d, m, ks. repeat split; try assumption; apply Hb.
Defined.


(* ################################################################# *)
(** * The spacing of the stations *)

Lemma exp_convex_strict (p a : R) :
  0 < p < 1 -> a <> 0 -> exp (p * a) < p * exp a + (1 - p).
Proof.
  intros Hp Ha.
  set (E := exp (p * a)).
  assert (HE : 0 < E) by apply exp_pos.
  assert (H1 : 1 + (a - p * a) < exp (a - p * a)) by (apply exp_ineq1; nra).
  assert (H2 : 1 + (- (p * a)) < exp (- (p * a))) by (apply exp_ineq1; nra).
  assert (Ea : exp a = E * exp (a - p * a)).
  { unfold E. rewrite <- exp_plus. f_equal. ring. }
  assert (E1 : 1 = E * exp (- (p * a))).
  { unfold E. rewrite <- exp_plus, Rplus_opp_r. symmetry. apply exp_0. }
  set (X := exp (a - p * a)) in *. set (Y := exp (- (p * a))) in *.
  assert (HXY : 1 < p * X + (1 - p) * Y) by nra.
  replace (p * exp a + (1 - p)) with (E * (p * X + (1 - p) * Y)).
  - rewrite <- (Rmult_1_r E) at 1. apply Rmult_lt_compat_l; assumption.
  - transitivity (p * (E * X) + (1 - p) * (E * Y)); [ring|].
    rewrite <- E1, <- Ea. ring.
Qed.

(** Bernoulli's inequality for an exponent below one. *)
Lemma Rpower_below_tangent (y p : R) :
  0 < y -> y <> 1 -> 0 < p < 1 -> Rpower y p < 1 + p * (y - 1).
Proof.
  intros Hy Hy1 Hp. unfold Rpower.
  assert (Hln : ln y <> 0).
  { intros H. apply Hy1. apply ln_inv; [assumption|lra|]. now rewrite ln_1. }
  pose proof (exp_convex_strict p (ln y) Hp Hln) as H.
  rewrite exp_ln in H by assumption. lra.
Qed.

Lemma Rpower_midpoint (a b p : R) :
  0 < a -> a < b -> 0 < p < 1 ->
  Rpower a p + Rpower b p < 2 * Rpower ((a + b) / 2) p.
Proof.
  intros Ha Hab Hp.
  set (c := (a + b) / 2).
  assert (Hc : 0 < c) by (unfold c; lra).
  assert (HC : 0 < Rpower c p) by (unfold Rpower; apply exp_pos).
  assert (Hsplit : forall x, 0 < x -> Rpower x p = Rpower c p * Rpower (x / c) p).
  { intros x Hx. rewrite Rpower_mult_distr.
    - f_equal. field. lra.
    - assumption.
    - apply Rdiv_lt_0_compat; assumption. }
  assert (Hta : Rpower (a / c) p < 1 + p * (a / c - 1)).
  { apply Rpower_below_tangent; trivial.
    - apply Rdiv_lt_0_compat; assumption.
    - intros E. assert (a = c) by (apply Rmult_eq_reg_r with (/ c);
        [rewrite Rinv_r by lra; exact E|apply Rinv_neq_0_compat; lra]).
      unfold c in *. lra. }
  assert (Htb : Rpower (b / c) p < 1 + p * (b / c - 1)).
  { apply Rpower_below_tangent; trivial.
    - apply Rdiv_lt_0_compat; lra.
    - intros E. assert (b = c) by (apply Rmult_eq_reg_r with (/ c);
        [rewrite Rinv_r by lra; exact E|apply Rinv_neq_0_compat; lra]).
      unfold c in *. lra. }
  rewrite (Hsplit a Ha), (Hsplit b) by lra.
  assert (Hsum : a / c + b / c = 2) by (unfold c; field; lra).
  assert (Hp2 : p * (a / c) + p * (b / c) = 2 * p).
  { rewrite <- Rmult_plus_distr_l, Hsum. ring. }
  assert (HAB : Rpower (a / c) p + Rpower (b / c) p < 2) by lra.
  rewrite <- Rmult_plus_distr_l, (Rmult_comm 2).
  apply Rmult_lt_compat_l; assumption.
Qed.

(** Strict midpoint concavity of [x ** p] on [x >= 0], for [0 < p < 1]. *)
Lemma power_midpoint (a b p : R) :
  0 <= a -> a < b -> 0 < p < 1 ->
  np.power a p + np.power b p < 2 * np.power ((a + b) / 2) p.
Proof.
  intros Ha Hab Hp. unfold np.power.
  destruct (Req_dec_T b 0); [lra|].
  destruct (Req_dec_T ((a + b) / 2) 0); [lra|].
  destruct (Req_dec_T a 0) as [->|Hna].
  - destruct (Req_dec_T p 0); [lra|].
    rewrite Rplus_0_l. replace ((0 + b) / 2) with (b / 2) by field.
    assert (Hb : Rpower b p = Rpower 2 p * Rpower (b / 2) p).
    { rewrite Rpower_mult_distr by lra. f_equal. field. }
    rewrite Hb.
    assert (H2 : Rpower 2 p < 2).
    { rewrite <- (Rpower_1 2) at 2 by lra. apply Rpower_lt; lra. }
    assert (0 < Rpower (b / 2) p) by (unfold Rpower; apply exp_pos).
    nra.
  - apply Rpower_midpoint; lra.
Qed.

(** X19.  The spanwise parameters close up from root to tip: each step
    of [span_dist] is strictly shorter than the one before, so the
    stations are densest at the tip. *)
Theorem span_dist_steps_shrink (c : simple_ffd.config) (k : nat) (a b d : R) :
  nth_error (simple_ffd.span_dist c) k = Some a ->
  nth_error (simple_ffd.span_dist c) (S k) = Some b ->
  nth_error (simple_ffd.span_dist c) (S (S k)) = Some d ->
  0 < d - b < b - a.
Proof.
  intros Ha Hb Hd.
  assert (Hk : (S (S k) < simple_ffd.nZ c)%nat).
  { rewrite <- span_dist_length. apply nth_error_Some. congruence. }
  rewrite span_dist_nth in Ha, Hb, Hd by lia.
  inversion Ha; inversion Hb; inversion Hd; subst; clear Ha Hb Hd.
  split; [pose proof (t_lt c (S k) (S (S k)) ltac:(lia) Hk); lra|].
  unfold lattice.t.
  assert (Hp : 0 < INR (simple_ffd.nZ c - 1)) by (apply lt_0_INR; lia).
  pose proof (power_midpoint (INR k / INR (simple_ffd.nZ c - 1))
                (INR (S (S k)) / INR (simple_ffd.nZ c - 1)) (8 / 10)) as H.
  replace ((INR k / INR (simple_ffd.nZ c - 1)
            + INR (S (S k)) / INR (simple_ffd.nZ c - 1)) / 2)
    with (INR (S k) / INR (simple_ffd.nZ c - 1)) in H
    by (rewrite !S_INR; field; lra).
  assert (Hk0 : 0 <= INR k) by apply pos_INR.
  assert (Hk2 : INR k < INR (S (S k))) by (rewrite !S_INR; lra).
  assert (Hx0 : 0 <= INR k / INR (simple_ffd.nZ c - 1)).
  { apply Rmult_le_pos; [assumption|]. left. now apply Rinv_0_lt_compat. }
  assert (Hx1 : INR k / INR (simple_ffd.nZ c - 1)
                < INR (S (S k)) / INR (simple_ffd.nZ c - 1)).
  { apply Rmult_lt_compat_r; [now apply Rinv_0_lt_compat|assumption]. }
  specialize (H Hx0 Hx1 ltac:(lra)). lra.
Qed.

Lemma span_dist_steps_shrink_witness :
  0 < lattice.t simple_ffd.tutorial 2 - lattice.t simple_ffd.tutorial 1
    < lattice.t simple_ffd.tutorial 1 - lattice.t simple_ffd.tutorial 0.
Proof.
  apply (span_dist_steps_shrink simple_ffd.tutorial 0);
    apply span_dist_nth; simpl; lia.
Defined.

(* ################################################################# *)
(** * The physical lines of the file *)

Lemma count_char_app (ch : ascii) (a b : string) :
  text.count_char ch (a ++ b)
  = (text.count_char ch a + text.count_char ch b)%nat.
Proof.
  induction a as [|x a IH]; simpl; [reflexivity|]. rewrite IH. lia.
Qed.

Lemma count_char_uint (ch : ascii) (d : Decimal.uint) :
  text.is_separator ch ->
  text.count_char ch (NilEmpty.string_of_uint d) = 0%nat.
Proof.
  intros [-> | ->]; induction d; simpl; trivial.
Qed.

Lemma count_char_decimal (ch : ascii) (n : N) :
  text.is_separator ch -> text.count_char ch (decimal n) = 0%nat.
Proof. intros H. unfold decimal. now apply count_char_uint. Qed.

Lemma count_char_zeros (ch : ascii) (n : nat) :
  text.is_separator ch ->
  text.count_char ch (String.concat EmptyString (repeat "0"%string n)) = 0%nat.
Proof.
  intros H. induction n as [|[|n] IH]; [reflexivity|destruct H as [-> | ->]; reflexivity|].
  change (repeat "0"%string (S (S n)))
    with ("0"%string :: repeat "0"%string (S n)).
  cbn [String.concat]. cbn [repeat] in IH |- *.
  rewrite !count_char_app, IH.
  destruct H as [-> | ->]; reflexivity.
Qed.

(** A formatted number holds neither a tab nor a newline. *)
Lemma count_char_fmt (ch : ascii) (x : R) :
  text.is_separator ch -> text.count_char ch (fmt_3_8f x) = 0%nat.
Proof.
  intros H. unfold fmt_3_8f, pad_left.
  rewrite !count_char_app, !count_char_decimal, count_char_zeros by assumption.
  destruct (Rlt_dec x 0); destruct H as [-> | ->]; reflexivity.
Qed.

Lemma count_nl_line (r : list R) :
  text.count_char text.nl_char (lattice.line r) = 1%nat.
Proof.
  unfold lattice.line. induction r as [|v r IH]; [reflexivity|].
  cbn [fold_right]. rewrite !count_char_app, count_char_fmt, IH by now right.
  reflexivity.
Qed.

Lemma count_tab_line (r : list R) :
  text.count_char text.tab_char (lattice.line r) = List.length r.
Proof.
  unfold lattice.line. induction r as [|v r IH]; [reflexivity|].
  cbn [fold_right List.length].
  rewrite !count_char_app, count_char_fmt, IH by now left.
  reflexivity.
Qed.

Lemma count_nl_lines (rows : list (list R)) :
  text.count_char text.nl_char (lattice.flatten (map lattice.line rows))
  = List.length rows.
Proof.
  induction rows as [|r rows IH]; [reflexivity|].
  cbn [map lattice.flatten fold_right List.length].
  fold (lattice.flatten (map lattice.line rows)).
  now rewrite count_char_app, count_nl_line, IH.
Qed.

Lemma count_tab_lines (m : nat) (rows : list (list R)) :
  Forall (fun r => List.length r = m) rows ->
  text.count_char text.tab_char (lattice.flatten (map lattice.line rows))
  = (m * List.length rows)%nat.
Proof.
  induction 1 as [|r rows Hr _ IH]; [simpl; lia|].
  cbn [map lattice.flatten fold_right List.length].
  fold (lattice.flatten (map lattice.line rows)).
  rewrite count_char_app, count_tab_line, IH, Hr. lia.
Qed.

Lemma count_header2 (c : simple_ffd.config) :
  text.count_char text.nl_char (simple_ffd.header2 c) = 1%nat
  /\ text.count_char text.tab_char (simple_ffd.header2 c) = 6%nat.
Proof.
  unfold simple_ffd.header2, fmt_d.
  split; rewrite !count_char_app, !count_char_decimal;
    solve [reflexivity | now left | now right].
Qed.

(** X20.  After a successful run with [nX = 6] the file has one physical
    line per header line and per row, [2 + 3 nY nZ] newline characters in
    all, and [8 + 18 nY nZ] tabs: two before each of the four header
    numbers and one before each of the six fields of a row; no formatted
    number contains either character. *)
Theorem file_lines_and_fields (c : simple_ffd.config) (g : simple_ffd.grids)
  (fs : filesystem) :
  simple_ffd.compute_grids c = Ok g ->
  simple_ffd.nX c = 6%nat ->
  exists fs' s,
    simple_ffd.main c fs = (fs', Ok tt)
    /\ fs' simple_ffd.filename = Some s
    /\ text.count_char text.nl_char s
       = (2 + 3 * (simple_ffd.nY c * simple_ffd.nZ c))%nat
    /\ text.count_char text.tab_char s
       = (8 + 18 * (simple_ffd.nY c * simple_ffd.nZ c))%nat.
Proof.
  intros Hg H6. apply compute_grids_ok_inv in Hg. destruct Hg as (Hr & Hl & ->).
  assert (H : lattice.ranges_ok c && lattice.levels_ok c = true)
    by now rewrite Hr, Hl.
  assert (Hw : lattice.writable c = true).
  { unfold lattice.writable. now rewrite H6. }
  destruct (main_ok c fs H Hw) as (fs' & Hrun & Hfile & _).
  destruct (filled_shape c) as ((LX & FX) & (LY & FY) & (LZ & FZ)).
  destruct (count_header2 c) as [Hn2 Ht2].
  exists fs', (lattice.contents c (lattice.filled c)).
  split; [exact Hrun|]. split; [exact Hfile|].
  unfold lattice.contents, lattice.body_lines.
  cbn [lattice.filled simple_ffd.X simple_ffd.Y simple_ffd.Z].
  rewrite !flatten_app, !count_char_app, Hn2, Ht2, !count_nl_lines.
  rewrite (count_tab_lines _ _ FX), (count_tab_lines _ _ FY),
    (count_tab_lines _ _ FZ), LX, LY, LZ, H6.
  split.
  - change (text.count_char text.nl_char simple_ffd.header1) with 1%nat. lia.
  - change (text.count_char text.tab_char simple_ffd.header1) with 2%nat. lia.
Qed.

Lemma file_lines_and_fields_witness :
  exists fs' s,
    simple_ffd.main simple_ffd.tutorial lattice.no_files = (fs', Ok tt)
    /\ fs' simple_ffd.filename = Some s
    /\ text.count_char text.nl_char s = (2 + 3 * (2 * 8))%nat
    /\ text.count_char text.tab_char s = (8 + 18 * (2 * 8))%nat.
Proof.
  apply (file_lines_and_fields simple_ffd.tutorial
           (lattice.filled simple_ffd.tutorial) lattice.no_files).
  - apply compute_grids_ok; reflexivity.
  - reflexivity.
Defined.
